(** * sbox_qiita_api: Markdown front matter, tag micro-format and Qiita client

    A shallow embedding of [main.go].  Go strings are byte sequences and are
    modelled as [string] (one [ascii] per byte); a slice whose nil-ness is
    observable is an [option (list _)] with [None] for the nil slice; a call
    that can return an [error] or panic yields an [outcome]. *)

From Stdlib Require Import ZArith Lia Ascii String Zbitwise.
From stdpp Require Import base option list strings gmap.

Local Open Scope string_scope.
Local Open Scope list_scope.
Local Open Scope Z_scope.

(** ** Results of Go calls *)

(** The run-time panics that [main.go] can raise. *)
Inductive panic : Type :=
  | IndexOutOfRange (index length : nat)
  | InterfaceConversion (dynamic_type wanted : string).

(** What a [*json.SyntaxError] reports, in place of its formatted message. *)
Inductive syntax_msg : Type :=
  | InvalidCharacter (c : ascii) (context : string)
  | ExceededMaxDepth (c : ascii)
  | UnexpectedEnd.

(** Go [error] values; [Wrap] is [errors.Wrap]. *)
Inductive error : Type :=
  | SyntaxError (msg : syntax_msg) (Offset : Z)
  | MarshalerError (cause : error)
  | ErrorString (msg : string)
  | Wrap (cause : error) (msg : string).

Inductive outcome (A : Type) : Type :=
  | Returned (a : A)
  | Failed (e : error)
  | Panicked (p : panic).
Arguments Returned {A} a.
Arguments Failed {A} e.
Arguments Panicked {A} p.

#[global] Instance outcome_ret : MRet outcome := @Returned.
#[global] Instance outcome_bind : MBind outcome := fun A B f m =>
  match m with
  | Returned a => f a
  | Failed e => Failed e
  | Panicked p => Panicked p
  end.

(** [xs[i]] on a slice: out of range is a run-time panic. *)
Definition index {A} (xs : list A) (i : nat) : outcome A :=
  match xs !! i with
  | Some x => Returned x
  | None => Panicked (IndexOutOfRange i (length xs))
  end.

(** ** The [strings] package *)

Module strings.

Definition len (s : string) : Z := Z.of_nat (String.length s).

(** [s[:m]] and [s[m:]]. *)
Fixpoint slice_to (m : nat) (s : string) : string :=
  match m, s with
  | S m', String c s' => String c (slice_to m' s')
  | _, _ => ""
  end.

Fixpoint slice_from (m : nat) (s : string) : string :=
  match m, s with
  | S m', String _ s' => slice_from m' s'
  | _, _ => s
  end.

Fixpoint HasPrefix (s prefix : string) : bool :=
  match prefix, s with
  | "", _ => true
  | String p prefix', String c s' =>
      if Ascii.eqb p c then HasPrefix s' prefix' else false
  | String _ _, "" => false
  end.

(** Position of the first instance of [substr] in [s]; [None] is Go's -1. *)
Fixpoint Index (s substr : string) : option nat :=
  if HasPrefix s substr then Some 0%nat
  else match s with
       | "" => None
       | String _ s' => S <$> Index s' substr
       end.

Definition Contains (s substr : string) : bool :=
  bool_decide (is_Some (Index s substr)).

(** The loop of [Count] for a non-empty [substr]; every round drops at
    least one byte of [s], so [String.length s] rounds are enough. *)
Fixpoint countLoop (fuel : nat) (s substr : string) : nat :=
  match fuel with
  | O => 0%nat
  | S fuel' =>
      match Index s substr with
      | None => 0%nat
      | Some i =>
          S (countLoop fuel' (slice_from (i + String.length substr) s) substr)
      end
  end.

Definition Count (s substr : string) : nat :=
  countLoop (String.length s) s substr.

(** The loop of [genSplit]: [rounds] is [n - 1 - i]. *)
Fixpoint splitLoop (rounds : nat) (s sep : string) : list string :=
  match rounds with
  | O => [s]
  | S rounds' =>
      match Index s sep with
      | None => [s]
      | Some m =>
          slice_to m s
            :: splitLoop rounds' (slice_from (m + String.length sep) s) sep
      end
  end.

(** [genSplit s sep 0 n].  Every call in [main.go] passes a constant,
    non-empty separator, so the [explode] branch taken for [sep = ""] is
    not embedded. *)
Definition genSplit (s sep : string) (n : Z) : option (list string) :=
  if n =? 0 then None
  else
    let n := if n <? 0 then Z.of_nat (Count s sep) + 1 else n in
    let n := if n >? len s + 1 then len s + 1 else n in
    Some (splitLoop (Z.to_nat (n - 1)) s sep).

Definition SplitN (s sep : string) (n : Z) : option (list string) :=
  genSplit s sep n.

Definition Split (s sep : string) : option (list string) :=
  genSplit s sep (-1).

Fixpoint Join (elems : list string) (sep : string) : string :=
  match elems with
  | [] => ""
  | [e] => e
  | e :: elems' => e +:+ sep +:+ Join elems' sep
  end.

End strings.

(** Elements of a possibly nil slice, as seen by [len] and [range]. *)
Definition elems {A} (s : option (list A)) : list A := default [] s.

(** [append(s, x)]: the result is never nil. *)
Definition append {A} (s : option (list A)) (x : A) : option (list A) :=
  Some (elems s ++ [x]).

(** ** Tagging *)

Record Tagging : Type := mkTagging {
  Name : string;
  Versions : option (list string);
}.

(** [func (t Tagging) String() string] *)
Definition Tagging_String (t : Tagging) : string :=
  let res := Name t in
  if 0 <? Z.of_nat (length (elems (Versions t))) then
    res +:+ ":" +:+ strings.Join (elems (Versions t)) ","
  else res.

(** [func ParseTagging(src string) *Tagging] *)
Definition ParseTagging (src : string) : outcome Tagging :=
  let seps := elems (strings.SplitN src ":" 2) in
  name ← index seps 0;
  if (length seps =? 2)%nat then
    rest ← index seps 1;
    mret (mkTagging name (strings.Split rest ","))
  else mret (mkTagging name None).

(** ** Bytes and the [unicode/utf8] decoder *)

Definition byte (c : ascii) : Z := Z.of_N (N_of_ascii c).
Definition chr (b : Z) : ascii := ascii_of_N (Z.to_N b).

(** Literals that cannot be typed inside a string: the double quote and the
    line feed. *)
Definition dq : string := String "034"%char "".
Definition nl : string := String "010"%char "".

(** The table [hex] of [encoding/json]. *)
Definition hex (d : Z) : ascii :=
  if d <? 10 then chr (48 + d) else chr (87 + d).

Module utf8.

Definition RuneError : Z := 0xFFFD.
Definition RuneSelf : Z := 0x80.

Definition locb : Z := 0x80.
Definition hicb : Z := 0xBF.

(** Entries of the table [first]: [xx] invalid, [as_] ASCII, [s1]..[s7]
    the size in the low bits and the accept range in the high ones. *)
Definition xx : Z := 0xF1.
Definition as_ : Z := 0xF0.
Definition s1 : Z := 0x02.
Definition s2 : Z := 0x13.
Definition s3 : Z := 0x03.
Definition s4 : Z := 0x23.
Definition s5 : Z := 0x34.
Definition s6 : Z := 0x04.
Definition s7 : Z := 0x44.

Definition first (b : Z) : Z :=
  if b <? 0x80 then as_
  else if b <? 0xC2 then xx
  else if b <? 0xE0 then s1
  else if b =? 0xE0 then s2
  else if b <? 0xED then s3
  else if b =? 0xED then s4
  else if b <? 0xF0 then s3
  else if b =? 0xF0 then s5
  else if b <? 0xF4 then s6
  else if b =? 0xF4 then s7
  else xx.

Definition acceptRanges (i : Z) : Z * Z :=
  if i =? 0 then (locb, hicb)
  else if i =? 1 then (0xA0, hicb)
  else if i =? 2 then (locb, 0x9F)
  else if i =? 3 then (0x90, hicb)
  else if i =? 4 then (locb, 0x8F)
  else (0, 0).

Definition maskx : Z := 0x3F.
Definition mask2 : Z := 0x1F.
Definition mask3 : Z := 0x0F.
Definition mask4 : Z := 0x07.

Definition cont (c : ascii) : Z := Z.land (byte c) maskx.

(** [DecodeRuneInString]: the rune and its width in bytes. *)
Definition DecodeRuneInString (s : string) : Z * nat :=
  match s with
  | "" => (RuneError, 0%nat)
  | String c0 t0 =>
      let x := first (byte c0) in
      if x >=? as_ then
        ((if Z.testbit x 0 then RuneError else byte c0), 1%nat)
      else
        let sz := Z.land x 7 in
        let accept := acceptRanges (Z.shiftr x 4) in
        if strings.len s <? sz then (RuneError, 1%nat)
        else match t0 with
        | "" => (RuneError, 1%nat)
        | String c1 t1 =>
            if (byte c1 <? fst accept) || (snd accept <? byte c1)
            then (RuneError, 1%nat)
            else if sz <=? 2 then
              (Z.lor (Z.shiftl (Z.land (byte c0) mask2) 6) (cont c1), 2%nat)
            else match t1 with
            | "" => (RuneError, 1%nat)
            | String c2 t2 =>
                if (byte c2 <? locb) || (hicb <? byte c2)
                then (RuneError, 1%nat)
                else if sz <=? 3 then
                  (Z.lor (Z.lor (Z.shiftl (Z.land (byte c0) mask3) 12)
                                (Z.shiftl (cont c1) 6)) (cont c2), 3%nat)
                else match t2 with
                | "" => (RuneError, 1%nat)
                | String c3 _ =>
                    if (byte c3 <? locb) || (hicb <? byte c3)
                    then (RuneError, 1%nat)
                    else
                      (Z.lor (Z.lor (Z.lor
                         (Z.shiftl (Z.land (byte c0) mask4) 18)
                         (Z.shiftl (cont c1) 12))
                         (Z.shiftl (cont c2) 6)) (cont c3), 4%nat)
                end
            end
        end
  end.

End utf8.

(** ** [encoding/json]: the scanner *)

Module json.

(** The values a step function returns. *)
Inductive scanCode : Type :=
  | scanContinue | scanBeginLiteral | scanBeginObject | scanObjectKey
  | scanObjectValue | scanEndObject | scanBeginArray | scanArrayValue
  | scanEndArray | scanSkipSpace | scanEnd | scanError.

Definition scanCode_value (v : scanCode) : Z :=
  match v with
  | scanContinue => 0 | scanBeginLiteral => 1 | scanBeginObject => 2
  | scanObjectKey => 3 | scanObjectValue => 4 | scanEndObject => 5
  | scanBeginArray => 6 | scanArrayValue => 7 | scanEndArray => 8
  | scanSkipSpace => 9 | scanEnd => 10 | scanError => 11
  end.

Inductive parseState_entry : Type :=
  | parseObjectKey | parseObjectValue | parseArrayValue.

(** The step functions, as the values of the field [step]. *)
Inductive stepFn : Type :=
  | stateBeginValueOrEmpty | stateBeginValue | stateBeginStringOrEmpty
  | stateBeginString | stateEndValue | stateEndTop
  | stateInString | stateInStringEsc | stateInStringEscU
  | stateInStringEscU1 | stateInStringEscU12 | stateInStringEscU123
  | stateNeg | state1 | state0 | stateDot | stateDot0
  | stateE | stateESign | stateE0
  | stateT | stateTr | stateTru
  | stateF | stateFa | stateFal | stateFals
  | stateN | stateNu | stateNul
  | stateError.

(** [scanner]; the innermost entry of [parseState] is the head. *)
Record scanner : Type := mkScanner {
  step : stepFn;
  endTop : bool;
  parseState : list parseState_entry;
  err : option error;
  bytes : Z;
}.

Definition maxNestingDepth : Z := 10000.

Definition reset : scanner :=
  mkScanner stateBeginValue false [] None 0.

Definition set_step (s : scanner) (f : stepFn) : scanner :=
  mkScanner f (endTop s) (parseState s) (err s) (bytes s).

Definition set_top (s : scanner) (p : parseState_entry) : scanner :=
  mkScanner (step s) (endTop s) (p :: tail (parseState s)) (err s) (bytes s).

(** [s.error(c, context)] *)
Definition error_ (s : scanner) (c : ascii) (context : string)
  : scanner * scanCode :=
  (mkScanner stateError (endTop s) (parseState s)
     (Some (SyntaxError (InvalidCharacter c context) (bytes s))) (bytes s),
   scanError).

Definition pushParseState (s : scanner) (c : ascii)
    (newParseState : parseState_entry) (successState : scanCode)
  : scanner * scanCode :=
  let s := mkScanner (step s) (endTop s) (newParseState :: parseState s)
             (err s) (bytes s) in
  if Z.of_nat (length (parseState s)) <=? maxNestingDepth
  then (s, successState)
  else (mkScanner stateError (endTop s) (parseState s)
          (Some (SyntaxError (ExceededMaxDepth c) (bytes s))) (bytes s),
        scanError).

Definition popParseState (s : scanner) : scanner :=
  let ps := tail (parseState s) in
  match ps with
  | [] => mkScanner stateEndTop true ps (err s) (bytes s)
  | _ => mkScanner stateEndValue (endTop s) ps (err s) (bytes s)
  end.

Definition isSpace (c : ascii) : bool :=
  (byte c <=? 32)
  && ((byte c =? 32) || (byte c =? 9) || (byte c =? 13) || (byte c =? 10)).

Definition isDigit (c : ascii) : bool := (48 <=? byte c) && (byte c <=? 57).
Definition isDigit19 (c : ascii) : bool := (49 <=? byte c) && (byte c <=? 57).
Definition isHex (c : ascii) : bool :=
  isDigit c || ((97 <=? byte c) && (byte c <=? 102))
            || ((65 <=? byte c) && (byte c <=? 70)).

Definition eqc (c : ascii) (lit : string) : bool :=
  match lit with String l "" => Ascii.eqb c l | _ => false end.

Definition stateEndTop_ (s : scanner) (c : ascii) : scanner * scanCode :=
  if negb (isSpace c)
  then (fst (error_ s c "after top-level value"), scanEnd)
  else (s, scanEnd).

Definition stateEndValue_ (s : scanner) (c : ascii) : scanner * scanCode :=
  match parseState s with
  | [] =>
      stateEndTop_ (mkScanner stateEndTop true [] (err s) (bytes s)) c
  | ps :: _ =>
      if isSpace c then (set_step s stateEndValue, scanSkipSpace)
      else match ps with
      | parseObjectKey =>
          if eqc c ":" then
            (set_step (set_top s parseObjectValue) stateBeginValue,
             scanObjectKey)
          else error_ s c "after object key"
      | parseObjectValue =>
          if eqc c "," then
            (set_step (set_top s parseObjectKey) stateBeginString,
             scanObjectValue)
          else if eqc c "}" then (popParseState s, scanEndObject)
          else error_ s c "after object key:value pair"
      | parseArrayValue =>
          if eqc c "," then (set_step s stateBeginValue, scanArrayValue)
          else if eqc c "]" then (popParseState s, scanEndArray)
          else error_ s c "after array element"
      end
  end.

Definition stateBeginValue_ (s : scanner) (c : ascii) : scanner * scanCode :=
  if isSpace c then (s, scanSkipSpace)
  else if eqc c "{" then
    pushParseState (set_step s stateBeginStringOrEmpty) c
      parseObjectKey scanBeginObject
  else if eqc c "[" then
    pushParseState (set_step s stateBeginValueOrEmpty) c
      parseArrayValue scanBeginArray
  else if eqc c dq then (set_step s stateInString, scanBeginLiteral)
  else if eqc c "-" then (set_step s stateNeg, scanBeginLiteral)
  else if eqc c "0" then (set_step s state0, scanBeginLiteral)
  else if eqc c "t" then (set_step s stateT, scanBeginLiteral)
  else if eqc c "f" then (set_step s stateF, scanBeginLiteral)
  else if eqc c "n" then (set_step s stateN, scanBeginLiteral)
  else if isDigit19 c then (set_step s state1, scanBeginLiteral)
  else error_ s c "looking for beginning of value".

Definition stateBeginString_ (s : scanner) (c : ascii)
  : scanner * scanCode :=
  if isSpace c then (s, scanSkipSpace)
  else if eqc c dq then (set_step s stateInString, scanBeginLiteral)
  else error_ s c "looking for beginning of object key string".

Definition state0_ (s : scanner) (c : ascii) : scanner * scanCode :=
  if eqc c "." then (set_step s stateDot, scanContinue)
  else if eqc c "e" || eqc c "E" then (set_step s stateE, scanContinue)
  else stateEndValue_ s c.

Definition stateESign_ (s : scanner) (c : ascii) : scanner * scanCode :=
  if isDigit c then (set_step s stateE0, scanContinue)
  else error_ s c "in exponent of numeric literal".

(** One letter of [true], [false] or [null]. *)
Definition expect (s : scanner) (c : ascii) (want : string) (next : stepFn)
    (context : string) : scanner * scanCode :=
  if eqc c want then (set_step s next, scanContinue) else error_ s c context.

(** [s.step(s, c)]. *)
Definition step_ (s : scanner) (c : ascii) : scanner * scanCode :=
  match step s with
  | stateBeginValueOrEmpty =>
      if isSpace c then (s, scanSkipSpace)
      else if eqc c "]" then stateEndValue_ s c
      else stateBeginValue_ s c
  | stateBeginValue => stateBeginValue_ s c
  | stateBeginStringOrEmpty =>
      if isSpace c then (s, scanSkipSpace)
      else if eqc c "}" then stateEndValue_ (set_top s parseObjectValue) c
      else stateBeginString_ s c
  | stateBeginString => stateBeginString_ s c
  | stateEndValue => stateEndValue_ s c
  | stateEndTop => stateEndTop_ s c
  | stateInString =>
      if eqc c dq then (set_step s stateEndValue, scanContinue)
      else if eqc c "\" then (set_step s stateInStringEsc, scanContinue)
      else if byte c <? 32 then error_ s c "in string literal"
      else (s, scanContinue)
  | stateInStringEsc =>
      if eqc c "b" || eqc c "f" || eqc c "n" || eqc c "r" || eqc c "t"
         || eqc c "\" || eqc c "/" || eqc c dq
      then (set_step s stateInString, scanContinue)
      else if eqc c "u" then (set_step s stateInStringEscU, scanContinue)
      else error_ s c "in string escape code"
  | stateInStringEscU =>
      if isHex c then (set_step s stateInStringEscU1, scanContinue)
      else error_ s c "in \u hexadecimal character escape"
  | stateInStringEscU1 =>
      if isHex c then (set_step s stateInStringEscU12, scanContinue)
      else error_ s c "in \u hexadecimal character escape"
  | stateInStringEscU12 =>
      if isHex c then (set_step s stateInStringEscU123, scanContinue)
      else error_ s c "in \u hexadecimal character escape"
  | stateInStringEscU123 =>
      if isHex c then (set_step s stateInString, scanContinue)
      else error_ s c "in \u hexadecimal character escape"
  | stateNeg =>
      if eqc c "0" then (set_step s state0, scanContinue)
      else if isDigit19 c then (set_step s state1, scanContinue)
      else error_ s c "in numeric literal"
  | state1 =>
      if isDigit c then (set_step s state1, scanContinue)
      else state0_ s c
  | state0 => state0_ s c
  | stateDot =>
      if isDigit c then (set_step s stateDot0, scanContinue)
      else error_ s c "after decimal point in numeric literal"
  | stateDot0 =>
      if isDigit c then (s, scanContinue)
      else if eqc c "e" || eqc c "E" then (set_step s stateE, scanContinue)
      else stateEndValue_ s c
  | stateE =>
      if eqc c "+" || eqc c "-" then (set_step s stateESign, scanContinue)
      else stateESign_ s c
  | stateESign => stateESign_ s c
  | stateE0 =>
      if isDigit c then (s, scanContinue) else stateEndValue_ s c
  | stateT => expect s c "r" stateTr "in literal true (expecting 'r')"
  | stateTr => expect s c "u" stateTru "in literal true (expecting 'u')"
  | stateTru => expect s c "e" stateEndValue "in literal true (expecting 'e')"
  | stateF => expect s c "a" stateFa "in literal false (expecting 'a')"
  | stateFa => expect s c "l" stateFal "in literal false (expecting 'l')"
  | stateFal => expect s c "s" stateFals "in literal false (expecting 's')"
  | stateFals =>
      expect s c "e" stateEndValue "in literal false (expecting 'e')"
  | stateN => expect s c "u" stateNu "in literal null (expecting 'u')"
  | stateNu => expect s c "l" stateNul "in literal null (expecting 'l')"
  | stateNul => expect s c "l" stateEndValue "in literal null (expecting 'l')"
  | stateError => (s, scanError)
  end.

Definition tick (s : scanner) : scanner :=
  mkScanner (step s) (endTop s) (parseState s) (err s) (bytes s + 1).

(** [s.eof()] *)
Definition eof (s : scanner) : scanner * scanCode :=
  match err s with
  | Some _ => (s, scanError)
  | None =>
      if endTop s then (s, scanEnd)
      else
        let s := fst (step_ s " "%char) in
        if endTop s then (s, scanEnd)
        else match err s with
             | Some _ => (s, scanError)
             | None =>
                 (mkScanner (step s) (endTop s) (parseState s)
                    (Some (SyntaxError UnexpectedEnd (bytes s))) (bytes s),
                  scanError)
             end
  end.

(** The loop of [checkValid]: [inl] is the scanner after the last byte,
    [inr] the error of the first byte refused. *)
Fixpoint checkValidLoop (s : scanner) (data : string) : scanner + error :=
  match data with
  | "" => inl s
  | String c data' =>
      let '(s', v) := step_ (tick s) c in
      match v with
      | scanError => inr (default (ErrorString "") (err s'))
      | _ => checkValidLoop s' data'
      end
  end.

(** [checkValid]: [None] is the nil error. *)
Definition checkValid (data : string) : option error :=
  match checkValidLoop reset data with
  | inr e => Some e
  | inl s =>
      let '(s', v) := eof s in
      match v with
      | scanError => err s'
      | _ => None
      end
  end.

Definition Valid (data : string) : bool :=
  match checkValid data with None => true | Some _ => false end.

(** The tables [htmlSafeSet] of [tables.go]: every byte from the space to
    0x7f but the double quote, [&], [<], [>] and the backslash. *)
Definition htmlSafeSet (b : Z) : bool :=
  (32 <=? b) && (b <=? 127)
  && negb ((b =? 34) || (b =? 38) || (b =? 60) || (b =? 62) || (b =? 92)).

(** The loop of [appendString] with [escapeHTML] set; [fuel] bounds the
    rounds, each of which consumes at least one byte of [src]. *)
Fixpoint appendStringLoop (fuel : nat) (src : string) : string :=
  match fuel, src with
  | S fuel', String c rest =>
      let b := byte c in
      if b <? utf8.RuneSelf then
        (if htmlSafeSet b then String c ""
         else if (b =? 92) || (b =? 34) then String "\"%char (String c "")
         else if b =? 8 then "\b"
         else if b =? 12 then "\f"
         else if b =? 10 then "\n"
         else if b =? 13 then "\r"
         else if b =? 9 then "\t"
         else "\u00" +:+ String (hex (Z.shiftr b 4))
                            (String (hex (Z.land b 15)) ""))
        +:+ appendStringLoop fuel' rest
      else
        let '(r, size) := utf8.DecodeRuneInString (strings.slice_to 4 src) in
        (if (r =? utf8.RuneError) && (size =? 1)%nat then "\ufffd"
         else if (r =? 0x2028) || (r =? 0x2029) then
           "\u202" +:+ String (hex (Z.land r 15)) ""
         else strings.slice_to size src)
        +:+ appendStringLoop fuel' (strings.slice_from size src)
  | _, _ => ""
  end.

Definition appendString (src : string) : string :=
  dq +:+ appendStringLoop (String.length src) src +:+ dq.

(** [json.Marshal] of a [[]string]: [null] for the nil slice. *)
Definition Marshal_strings (v : option (list string)) : outcome string :=
  match v with
  | None => Returned "null"
  | Some l => Returned ("[" +:+ strings.Join (appendString <$> l) "," +:+ "]")
  end.

(** [compact] with [escape] set, as [marshalerEncoder] calls it: the state
    of its loop is the index [start], the buffer [dst] and the scanner. *)
Record compactState : Type := mkCompact {
  c_start : nat;
  c_dst : string;
  c_scan : scanner;
}.

(** [if start < i { dst.Write(src[start:i]) }] *)
Definition flush (src : string) (st : compactState) (i : nat) : string :=
  if (c_start st <? i)%nat
  then c_dst st
         +:+ strings.slice_to (i - c_start st)
               (strings.slice_from (c_start st) src)
  else c_dst st.

(** The loop over [src] from index [i], where [rest] is [src[i:]]; a
    [scanError] leaves the loop. *)
Fixpoint compactLoop (src : string) (i : nat) (rest : string)
    (st : compactState) : compactState :=
  match rest with
  | "" => st
  | String c rest' =>
      let st :=
        if (byte c =? 60) || (byte c =? 62) || (byte c =? 38) then
          mkCompact (i + 1)
            (flush src st i +:+ "\u00"
               +:+ String (hex (Z.shiftr (byte c) 4))
                     (String (hex (Z.land (byte c) 15)) ""))
            (c_scan st)
        else st in
      let st :=
        match rest' with
        | String c1 (String c2 _) =>
            if (byte c =? 0xE2) && (byte c1 =? 0x80)
               && (Z.land (byte c2) 0xFE =? 0xA8) then
              mkCompact (i + 3)
                (flush src st i +:+ "\u202"
                   +:+ String (hex (Z.land (byte c2) 15)) "")
                (c_scan st)
            else st
        | _ => st
        end in
      let '(scan, v) := step_ (c_scan st) c in
      if scanCode_value v >=? scanCode_value scanSkipSpace then
        match v with
        | scanError => mkCompact (c_start st) (c_dst st) scan
        | _ =>
            compactLoop src (i + 1) rest'
              (mkCompact (i + 1) (flush src st i) scan)
        end
      else
        compactLoop src (i + 1) rest'
          (mkCompact (c_start st) (c_dst st) scan)
  end.

Definition compact (src : string) : outcome string :=
  let st := compactLoop src 0 src (mkCompact 0 "" reset) in
  let '(scan, v) := eof (c_scan st) in
  match v with
  | scanError => Failed (default (ErrorString "") (err scan))
  | _ => Returned (flush src st (String.length src))
  end.

End json.

(** [func (t Tagging) MarshalJSON() ([]byte, error)] *)
Definition Tagging_MarshalJSON (t : Tagging) : outcome string :=
  let s := "{" +:+ dq +:+ "name" +:+ dq +:+ ":" +:+ dq +:+ Name t +:+ dq in
  s ← match Versions t with
      | Some _ =>
          vs ← json.Marshal_strings (Versions t);
          mret (s +:+ ", " +:+ dq +:+ "tags" +:+ dq +:+ ":" +:+ vs)
      | None => mret s
      end;
  mret (s +:+ "}").

(** ** Item *)

(** [time.Time], by its fields [wall] and [ext]; the zero value is the
    zero time. *)
Record Time : Type := mkTime { wall : Z; ext : Z }.

Record Item : Type := mkItem {
  ID : string;
  Title : string;
  Body : string;
  RenderedBody : string;
  Private : bool;
  Tags : option (list Tagging);
  CreatedAt : Time;
  UpdatedAt : Time;
}.

(** The zero value of [Item]. *)
Definition zeroItem : Item :=
  mkItem "" "" "" "" false None (mkTime 0 0) (mkTime 0 0).

(** ** [encoding/json]: the encoder, for the values [PostNewItem] sends *)

(** The dynamic types stored in [postdata]. *)
Inductive postvalue : Type :=
  | PostString (s : string)
  | PostBool (b : bool)
  | PostTags (ts : option (list Tagging)).

(** [marshalerEncoder] on a [Tagging]: the method's output, compacted. *)
Definition marshalerEncoder (t : Tagging) : outcome string :=
  match Tagging_MarshalJSON t with
  | Returned b =>
      match json.compact b with
      | Returned out => Returned out
      | Failed e => Failed (MarshalerError e)
      | Panicked p => Panicked p
      end
  | Failed e => Failed (MarshalerError e)
  | Panicked p => Panicked p
  end.

(** The elements of an array, encoded in turn. *)
Fixpoint encodeElems (ts : list Tagging) : outcome (list string) :=
  match ts with
  | [] => mret []
  | t :: ts' =>
      b ← marshalerEncoder t;
      bs ← encodeElems ts';
      mret (b :: bs)
  end.

Definition encodeValue (v : postvalue) : outcome string :=
  match v with
  | PostString s => mret (json.appendString s)
  | PostBool b => mret (if b then "true" else "false")
  | PostTags None => mret "null"
  | PostTags (Some ts) =>
      bs ← encodeElems ts;
      mret ("[" +:+ strings.Join bs "," +:+ "]")
  end.

(** The map encoder writes the keys in sorted order. *)
Fixpoint insertKey {A} (kv : string * A) (l : list (string * A))
  : list (string * A) :=
  match l with
  | [] => [kv]
  | kv' :: l' =>
      if String.leb (fst kv) (fst kv') then kv :: l
      else kv' :: insertKey kv l'
  end.

Definition sortKeys {A} (l : list (string * A)) : list (string * A) :=
  foldr insertKey [] l.

Fixpoint encodeFields (kvs : list (string * postvalue))
  : outcome (list string) :=
  match kvs with
  | [] => mret []
  | (k, v) :: kvs' =>
      b ← encodeValue v;
      bs ← encodeFields kvs';
      mret ((json.appendString k +:+ ":" +:+ b) :: bs)
  end.

(** [json.Marshal] of a [map[string]interface{}]. *)
Definition Marshal_map (m : gmap string postvalue) : outcome string :=
  bs ← encodeFields (sortKeys (map_to_list m));
  mret ("{" +:+ strings.Join bs "," +:+ "}").

(** ** [html/template] *)

Module template.

(** [htmlReplacementTable]; the empty string marks a rune with no entry. *)
Definition htmlReplacementTable (r : Z) : string :=
  if r =? 0 then String (chr 0xEF) (String (chr 0xBF) (String (chr 0xBD) ""))
  else if r =? 34 then "&#34;"
  else if r =? 38 then "&amp;"
  else if r =? 39 then "&#39;"
  else if r =? 43 then "&#43;"
  else if r =? 60 then "&lt;"
  else if r =? 62 then "&gt;"
  else "".

(** The number of entries of the table: one past [>]. *)
Definition htmlReplacementTable_len : Z := 63.

(** The loop of [htmlReplacer] with [badRunes] set: rune by rune, a rune
    with an entry is replaced and every other byte is kept. *)
Fixpoint htmlReplacerLoop (fuel : nat) (s : string) : string :=
  match fuel, s with
  | S fuel', String _ _ =>
      let '(r, w) := utf8.DecodeRuneInString s in
      (if (r <? htmlReplacementTable_len)
          && negb (String.eqb (htmlReplacementTable r) "")
       then htmlReplacementTable r
       else strings.slice_to w s)
      +:+ htmlReplacerLoop fuel' (strings.slice_from w s)
  | _, _ => ""
  end.

(** [htmlEscaper] on a plain string, the escaper of an action in text
    context. *)
Definition htmlEscaper (s : string) : string :=
  htmlReplacerLoop (String.length s) s.

(** [fmt.Sprint] of a [bool]. *)
Definition Sprint_bool (b : bool) : string := if b then "true" else "false".

End template.

(** [func (item *Item) ToMarkdown() (string, error)].  The template is a
    constant that parses, and writing to a [bytes.Buffer] does not fail; its
    actions stand in text context, so each is HTML-escaped.  The trim marker
    of [{{ . -}}] removes the space before [{{ end }}]. *)
Definition ToMarkdown (item : Item) : outcome string :=
  let tagStrs := Tagging_String <$> elems (Tags item) in
  let writer :=
    "---" +:+ nl +:+ "title: " +:+ template.htmlEscaper (Title item)
    +:+ nl +:+ "tags:"
    +:+ foldr (fun t out =>
                 " " +:+ template.htmlEscaper (Tagging_String t) +:+ out)
          "" (elems (Tags item))
    +:+ nl +:+ "private: "
    +:+ template.htmlEscaper (template.Sprint_bool (Private item))
    +:+ nl +:+ "---" +:+ nl +:+ template.htmlEscaper (Body item) in
  mret writer.

(** ** The world outside the program *)

(** The values [yaml.Unmarshal] stores in a [map[string]interface{}]; the
    program never looks inside a sequence or a nested mapping.  An integer
    is stored by the narrowest of three types: as [int] when it fits one, as
    [int64] when it fits 64 bits but not an [int] (where [int] has 32 bits),
    and as [uint64] when it lies above the largest [int64]. *)
Inductive yaml_value : Type :=
  | YNil
  | YString (s : string)
  | YBool (b : bool)
  | YInt (n : Z)
  | YInt64 (n : Z)
  | YUint64 (n : Z)
  | YFloat (text : string)
  | YSeq
  | YMap.

(** The name of the dynamic type, as the panic of a failed conversion
    prints it. *)
Definition dynamic_type (v : yaml_value) : string :=
  match v with
  | YNil => "nil"
  | YString _ => "string"
  | YBool _ => "bool"
  | YInt _ => "int"
  | YInt64 _ => "int64"
  | YUint64 _ => "uint64"
  | YFloat _ => "float64"
  | YSeq => "[]interface {}"
  | YMap => "map[interface {}]interface {}"
  end.

(** [v.(string)] and [v.(bool)]: the one-result form panics. *)
Definition assert_string (v : yaml_value) : outcome string :=
  match v with
  | YString s => Returned s
  | _ => Panicked (InterfaceConversion (dynamic_type v) "string")
  end.

Definition assert_bool (v : yaml_value) : outcome bool :=
  match v with
  | YBool b => Returned b
  | _ => Panicked (InterfaceConversion (dynamic_type v) "bool")
  end.

(** [net/url.URL] and [net/http.Request], by the fields the program sets. *)
Record URL : Type := mkURL { Scheme : string; Host : string; Path : string }.

Record Request : Type := mkRequest {
  Method : string;
  Url : URL;
  Header : gmap string (list string);
  ReqBody : option string;
}.

Record Response : Type := mkResponse {
  StatusCode : Z;
  ReadAll : outcome string;
}.

(** The libraries and services the program calls but does not contain:
    the YAML decoder (its error is dropped by the caller, so only the map it
    leaves counts), the JSON decoder behind [json.Unmarshal] once the input
    has been checked, the request dump and the HTTP round trip. *)
Class Externals : Type := {
  yaml_Unmarshal : string -> gmap string yaml_value;
  decodeItem : string -> outcome Item;
  decodeItems : string -> outcome (option (list Item));
  DumpRequest : Request -> bool -> string * option error;
  client_Do : Request -> outcome Response;
}.

(** The process state: the package variable [dryRun], the environment,
    what was printed and the requests handed to the network. *)
Record World : Type := mkWorld {
  dryRun : bool;
  environ : gmap string string;
  stdout : list string;
  sent : list Request;
}.

Definition Getenv (w : World) (key : string) : string :=
  default "" (environ w !! key).

Definition Println (a : string) (w : World) : World :=
  mkWorld (dryRun w) (environ w) (stdout w ++ [a +:+ nl]) (sent w).

Definition send (req : Request) (w : World) : World :=
  mkWorld (dryRun w) (environ w) (stdout w) (sent w ++ [req]).

(** The part of [url.Parse] that an absolute URL without user, query or
    fragment exercises. *)
Definition url_Parse (rawurl : string) : URL :=
  match strings.Index rawurl "://" with
  | Some i =>
      let rest := strings.slice_from (i + 3) rawurl in
      match strings.Index rest "/" with
      | Some j =>
          mkURL (strings.slice_to i rawurl) (strings.slice_to j rest)
            (strings.slice_from j rest)
      | None => mkURL (strings.slice_to i rawurl) rest ""
      end
  | None => mkURL "" "" rawurl
  end.

(** [http.NewRequest]; both calls pass a constant method and URL, for which
    it returns no error. *)
Definition NewRequest (method url : string) (body : option string) : Request :=
  mkRequest method (url_Parse url) ∅ body.

(** [req.Header.Set(key, value)]; both keys used are in canonical form. *)
Definition Header_Set (req : Request) (key value : string) : Request :=
  mkRequest (Method req) (Url req) (<[key := [value]]> (Header req))
    (ReqBody req).

(** [json.Unmarshal]: the input is checked first, then decoded. *)
Definition Unmarshal {A} (decode : string -> outcome A) (data : string)
  : outcome A :=
  match json.checkValid data with
  | Some e => Failed e
  | None => decode data
  end.

(** The map [postdata] of [PostNewItem]. *)
Definition postdata (item : Item) : gmap string postvalue :=
  <["body" := PostString (Body item)]>
    (<["tags" := PostTags (Tags item)]>
       (<["title" := PostString (Title item)]>
          (<["private" := PostBool (Private item)]> ∅))).

Section Program.

Context `{Externals}.

(** The loop of [ParseMarkdown] over the tag tokens. *)
Fixpoint parseTags (tokens : list string) (tags : option (list Tagging))
  : outcome (option (list Tagging)) :=
  match tokens with
  | [] => mret tags
  | t :: tokens' =>
      tag ← ParseTagging t;
      parseTags tokens' (append tags tag)
  end.

(** [func ParseMarkdown(src string) *Item] *)
Definition ParseMarkdown (src : string) : outcome Item :=
  let sections := elems (strings.SplitN src ("---" +:+ nl) 3) in
  section1 ← index sections 1;
  let meta := yaml_Unmarshal section1 in
  body ← index sections 2;
  title ← assert_string (default YNil (meta !! "title"));
  private ← match meta !! "private" with
            | Some priv => assert_bool priv
            | None => mret true
            end;
  tags ← match meta !! "tags" with
         | Some YNil | None => mret None
         | Some tagv =>
             s ← assert_string tagv;
             parseTags (elems (strings.Split s " ")) None
         end;
  mret (mkItem "" title body "" private tags (mkTime 0 0) (mkTime 0 0)).

(** [func DoRequest(req *http.Request) ([]byte, error)]: the result and
    the world it leaves.  The header is set on the caller's request. *)
Definition DoRequest (req : Request) (w : World) : outcome string * World :=
  let req :=
    Header_Set req "Authorization"
      ("Bearer " +:+ Getenv w "QIITA_API_TOKEN") in
  if dryRun w then
    let '(a, _) := DumpRequest req true in
    (Returned "", Println a w)
  else
    let w := send req w in
    match client_Do req with
    | Panicked p => (Panicked p, w)
    | Failed err => (Failed (Wrap err "failed to do request"), w)
    | Returned resp =>
        match ReadAll resp with
        | Panicked p => (Panicked p, w)
        | Failed err => (Failed (Wrap err "failed to read response body"), w)
        | Returned res => (Returned res, w)
        end
    end.

(** [func PostNewItem(item Item)], with results [*Item] and [error] *)
Definition PostNewItem (item : Item) (w : World) : outcome Item * World :=
  match Marshal_map (postdata item) with
  | Panicked p => (Panicked p, w)
  | Failed err => (Failed err, w)
  | Returned postbytes =>
      let req :=
        NewRequest "POST" "https://qiita.com/api/v2/items" (Some postbytes) in
      let req := Header_Set req "Content-Type" "application/json" in
      match DoRequest req w with
      | (Panicked p, w) => (Panicked p, w)
      | (Failed err, w) => (Failed (Wrap err "failed to DoRequest"), w)
      | (Returned resbytes, w) =>
          match Unmarshal decodeItem resbytes with
          | Panicked p => (Panicked p, w)
          | Failed err => (Failed (Wrap err "failed to unmarshal"), w)
          | Returned res => (Returned res, w)
          end
      end
  end.

(** [func GetSelfItems() ([]Item, error)] *)
Definition GetSelfItems (w : World)
  : outcome (option (list Item)) * World :=
  let req :=
    NewRequest "GET" "https://qiita.com/api/v2/authenticated_user/items"
      None in
  match DoRequest req w with
  | (Panicked p, w) => (Panicked p, w)
  | (Failed err, w) => (Failed (Wrap err "failed to DoRequest"), w)
  | (Returned resbyte, w) =>
      match Unmarshal decodeItems resbyte with
      | Panicked p => (Panicked p, w)
      | Failed err => (Failed (Wrap err "failed to unmarshal"), w)
      | Returned items => (Returned items, w)
      end
  end.

End Program.

(** ** A sample environment

    Stand-ins for the libraries, to run the program on sample documents: a
    decoder for flat block mappings of plain scalars, which reads such a
    document as [yaml.v2] does where [int] has 64 bits, when the only
    numeric scalars are plain decimals (digits only, no sign, no leading
    zero); a dump that lists the request line, the host, the headers and the
    body; a network that is down. *)

Module sample.

Definition isBlank (c : ascii) : bool := Ascii.eqb c " ".

Fixpoint trimLeft (s : string) : string :=
  match s with
  | String c s' => if isBlank c then trimLeft s' else s
  | "" => ""
  end.

Fixpoint trimRight (s : string) : string :=
  match s with
  | String c s' =>
      let r := trimRight s' in
      if isBlank c && String.eqb r "" then "" else String c r
  | "" => ""
  end.

Definition member (v : string) (l : list string) : bool :=
  existsb (String.eqb v) l.

(** The value of a plain decimal: digits only, and no leading zero but in
    the single digit [0]. *)
Definition digit (c : ascii) : option Z :=
  if (48 <=? byte c) && (byte c <=? 57) then Some (byte c - 48) else None.

Fixpoint decimalLoop (s : string) (acc : Z) : option Z :=
  match s with
  | "" => Some acc
  | String c s' =>
      match digit c with
      | Some d => decimalLoop s' (10 * acc + d)
      | None => None
      end
  end.

Definition decimal (v : string) : option Z :=
  match v with
  | "" => None
  | String c "" => digit c
  | String c _ => if Ascii.eqb c "0" then None else decimalLoop v 0
  end.

Definition MaxInt64 : Z := 9223372036854775807.
Definition MaxUint64 : Z := 18446744073709551615.

(** The plain scalars that [yaml.v2] resolves to null, to a boolean or to a
    number: a decimal is tried as a signed 64-bit integer, then as an
    unsigned one, then as a float. *)
Definition resolve (v : string) : yaml_value :=
  if member v [""; "~"; "null"; "Null"; "NULL"] then YNil
  else if member v ["y"; "Y"; "yes"; "Yes"; "YES"; "on"; "On"; "ON";
                    "true"; "True"; "TRUE"] then YBool true
  else if member v ["n"; "N"; "no"; "No"; "NO"; "off"; "Off"; "OFF";
                    "false"; "False"; "FALSE"] then YBool false
  else match decimal v with
       | Some n =>
           if n <=? MaxInt64 then YInt n
           else if n <=? MaxUint64 then YUint64 n
           else YFloat v
       | None => YString v
       end.

Definition decodeLine (line : string) (m : gmap string yaml_value)
  : gmap string yaml_value :=
  match strings.Index line ":" with
  | Some i =>
      <[strings.slice_to i line :=
          resolve (trimRight (trimLeft (strings.slice_from (i + 1) line)))]> m
  | None => m
  end.

Definition flatYaml (doc : string) : gmap string yaml_value :=
  foldl (fun m line => decodeLine line m) ∅ (elems (strings.Split doc nl)).

Definition crlf : string := String "013"%char nl.

Definition dumpHeader (kv : string * list string) : string :=
  fst kv +:+ ": " +:+ strings.Join (snd kv) "," +:+ crlf.

Definition dump (req : Request) (body : bool) : string * option error :=
  (Method req +:+ " " +:+ Path (Url req) +:+ " HTTP/1.1" +:+ crlf
   +:+ "Host: " +:+ Host (Url req) +:+ crlf
   +:+ strings.Join (dumpHeader <$> sortKeys (map_to_list (Header req))) ""
   +:+ crlf +:+ (if body then default "" (ReqBody req) else ""),
   None).

#[local] Instance externals : Externals := {|
  yaml_Unmarshal := flatYaml;
  decodeItem := fun _ => Returned zeroItem;
  decodeItems := fun _ => Returned None;
  DumpRequest := dump;
  client_Do := fun _ => Failed (ErrorString "network is unreachable");
|}.

End sample.

(** ** Sample documents and items *)

Definition delimiter : string := "---" +:+ nl.

(** A document from its front matter lines and its body. *)
Definition document (front : list string) (body : string) : string :=
  delimiter +:+ foldr (fun line rest => line +:+ nl +:+ rest) "" front
  +:+ delimiter +:+ body.

Definition doc_tags : string :=
  document ["title: Hello"; "tags: foo:1.0,2.0 bar"] "Body text here.".

Definition doc_no_title : string :=
  document ["private: true"] "Body text here.".

Definition doc_bool_title : string :=
  document ["title: true"] "Body text here.".

(** A title and a visibility above the largest [int64]. *)
Definition doc_big_title : string :=
  document ["title: 18446744073709551615"] "Body text here.".

Definition doc_big_private : string :=
  document ["title: Hello"; "private: 18446744073709551615"]
    "Body text here.".

Definition doc_sum : string :=
  document ["title: Q&A"] ("1 + 1 = 2" +:+ nl).

Definition item_go : Item :=
  mkItem "" "T" "B" "" true (Some [mkTagging "go" (Some ["1.x"])])
    (mkTime 0 0) (mkTime 0 0).

Definition world_dry : World :=
  mkWorld true {[ "QIITA_API_TOKEN" := "secret" ]} [] [].

(** ** Vocabulary of the properties *)

(** A string between double quotes, as it stands in a JSON text. *)
Definition quoted (s : string) : string := dq +:+ s +:+ dq.

(** The bytes that a JSON string must escape: the double quote, the
    backslash and the control bytes below the space. *)
Definition needs_escape (c : ascii) : bool :=
  (byte c =? 34) || (byte c =? 92) || (byte c <? 32).

(** A string with no such byte. *)
Fixpoint plain (s : string) : bool :=
  match s with
  | "" => true
  | String c s' => negb (needs_escape c) && plain s'
  end.

(** The bytes a call returned are a JSON text for [json.Valid]. *)
Definition valid_output (o : outcome string) : bool :=
  match o with
  | Returned b => json.Valid b
  | _ => false
  end.

(** A scanner that has met no error and has not finished the top-level
    value. *)
Definition scanning (f : json.stepFn) (ps : list json.parseState_entry)
    (n : Z) : json.scanner :=
  json.mkScanner f false ps None n.

(** The literal parts of what [Tagging.MarshalJSON] writes: up to the name,
    and from the name to the versions. *)
Definition name_prefix : string := "{" +:+ quoted "name" +:+ ":" +:+ dq.
Definition tags_infix : string :=
  dq +:+ ", " +:+ quoted "tags" +:+ ":" +:+ "[".

(** No string of the list holds the byte [c]. *)
Definition sep_free (c : ascii) (vs : list string) : Prop :=
  Forall (fun v => strings.Index v (String c "") = None) vs.

(** ** The rest of the program: requests, payload and [main] *)

(** Every byte of [s] passes the test [p]. *)
Fixpoint all_bytes (p : Z -> bool) (s : string) : bool :=
  match s with
  | "" => true
  | String c s' => p (byte c) && all_bytes p s'
  end.

(** The bytes that have an entry in [htmlReplacementTable]: NUL, the double
    quote, [&], the apostrophe, [+], [<] and [>]. *)
Definition html_replaced (b : Z) : bool :=
  (b =? 0) || (b =? 34) || (b =? 38) || (b =? 39) || (b =? 43)
  || (b =? 60) || (b =? 62).

(** The same bytes but [&], which the replacements themselves begin with. *)
Definition html_raw (b : Z) : bool := html_replaced b && negb (b =? 38).

(** The request [PostNewItem] hands to [DoRequest], with the authorization
    that [DoRequest] adds in the world [w]. *)
Definition items_request (w : World) (postbytes : string) : Request :=
  mkRequest "POST" (mkURL "https" "qiita.com" "/api/v2/items")
    (<["Authorization" := ["Bearer " +:+ Getenv w "QIITA_API_TOKEN"]]>
       {[ "Content-Type" := ["application/json"] ]})
    (Some postbytes).

(** The request of [GetSelfItems], likewise. *)
Definition self_items_request (w : World) : Request :=
  mkRequest "GET"
    (mkURL "https" "qiita.com" "/api/v2/authenticated_user/items")
    {[ "Authorization" := ["Bearer " +:+ Getenv w "QIITA_API_TOKEN"] ]}
    None.

(** The JSON text of the payload, given that of its tags. *)
Definition payload (item : Item) (tags : string) : string :=
  "{" +:+ quoted "body" +:+ ":" +:+ json.appendString (Body item) +:+ ","
  +:+ quoted "private" +:+ ":" +:+ (if Private item then "true" else "false")
  +:+ "," +:+ quoted "tags" +:+ ":" +:+ tags +:+ ","
  +:+ quoted "title" +:+ ":" +:+ json.appendString (Title item) +:+ "}".

(** A world outside the dry run, and an item with a tag that the encoder
    refuses. *)
Definition world_live : World :=
  mkWorld false {[ "QIITA_API_TOKEN" := "secret" ]} [] [].

Definition item_bad_tag : Item :=
  mkItem "" "T" "B" "" true
    (Some [mkTagging "go" None; mkTagging ("a" +:+ dq +:+ "b") None])
    (mkTime 0 0) (mkTime 0 0).

(** ** [main] *)

(** How a run of [main] ends: it returns, or it panics with the error it
    was given or with a run-time panic. *)
Inductive ending : Type :=
  | Returns
  | PanicsWith (err : error)
  | PanicsAt (p : panic).

(** What a run of [main] leaves: its ending, the world, and the lines the
    builtin [println] wrote to standard error. *)
Record execution : Type := mkExecution {
  ends : ending;
  world : World;
  stderr : list string;
}.

(** [func main()], given what [ioutil.ReadFile("_posts/sample.md")]
    returns. *)
Definition main `{Externals} (file : outcome string) (w : World) : execution :=
  match file with
  | Panicked p => mkExecution (PanicsAt p) w []
  | Failed err => mkExecution (PanicsWith err) w []
  | Returned buf =>
      match ParseMarkdown buf with
      | Panicked p => mkExecution (PanicsAt p) w []
      | Failed err => mkExecution (PanicsWith err) w []
      | Returned it =>
          match PostNewItem it w with
          | (Panicked p, w) => mkExecution (PanicsAt p) w []
          | (Failed err, w) => mkExecution (PanicsWith err) w []
          | (Returned r, w) =>
              match ToMarkdown r with
              | Panicked p => mkExecution (PanicsAt p) w []
              | Failed err => mkExecution (PanicsWith err) w []
              | Returned st => mkExecution Returns w [st +:+ nl]
              end
          end
      end
  end.

(** A service that answers every request with the status 201 and an empty
    JSON object, which decodes to the zero item. *)
Definition answering : Externals := {|
  yaml_Unmarshal := sample.flatYaml;
  decodeItem := fun _ => Returned zeroItem;
  decodeItems := fun _ => Returned None;
  DumpRequest := sample.dump;
  client_Do := fun _ => Returned (mkResponse 201 (Returned "{}"));
|}.

(** The front matter that [ToMarkdown] writes when nothing needs escaping:
    the title, the tags, each after a space, and the visibility. *)
Definition front_matter (item : Item) : string :=
  "title: " +:+ Title item +:+ nl
  +:+ "tags:"
  +:+ foldr (fun t out => " " +:+ Tagging_String t +:+ out) ""
        (elems (Tags item))
  +:+ nl
  +:+ "private: " +:+ (if Private item then "true" else "false") +:+ nl.

(** A string with none of the bytes that [htmlEscaper] replaces. *)
Definition unescaped (s : string) : bool :=
  all_bytes (fun b => negb (html_replaced b)) s.

(** A tag that [ParseTagging] reads back from what [Tagging.String] writes
    on the tags line: no colon in the name, versions that are nil or
    non-empty and comma-free, and no space anywhere. *)
Definition tag_readable (t : Tagging) : Prop :=
  strings.Contains (Name t) ":" = false
  /\ Versions t <> Some []
  /\ Forall (fun v => strings.Contains v "," = false) (elems (Versions t))
  /\ strings.Contains (Tagging_String t) " " = false.

(** The item of the sample document with two tags, and one with tags
    that are empty but not nil. *)
Definition item_hello : Item :=
  mkItem "" "Hello" "Body text here." "" false
    (Some [mkTagging "go" (Some ["1.x"]); mkTagging "sample" None])
    (mkTime 0 0) (mkTime 0 0).

Definition item_no_tags : Item :=
  mkItem "" "Hello" "Body text here." "" false (Some [])
    (mkTime 0 0) (mkTime 0 0).

(** * Properties *)

(** ** Strings: append, slices and the search for one byte *)

Section StringFacts.

Implicit Types (a b s : string) (c : ascii).

Lemma app_nil_l b : "" +:+ b = b.
Proof. reflexivity. Qed.

Lemma app_cons c a b : String c a +:+ b = String c (a +:+ b).
Proof. reflexivity. Qed.

Lemma length_app a b :
  String.length (a +:+ b) = (String.length a + String.length b)%nat.
Proof.
  induction a as [|x a IH]; [reflexivity |].
  rewrite app_cons. simpl. now rewrite IH.
Qed.

Lemma app_nil_r a : a +:+ "" = a.
Proof.
  induction a as [|x a IH]; [reflexivity | now rewrite app_cons, IH].
Qed.

Lemma app_assoc a b s : (a +:+ b) +:+ s = a +:+ (b +:+ s).
Proof.
  induction a as [|x a IH]; [reflexivity | now rewrite !app_cons, IH].
Qed.

Lemma slice_to_app a b : strings.slice_to (String.length a) (a +:+ b) = a.
Proof.
  induction a as [|x a IH]; [now destruct b |].
  rewrite app_cons. simpl. now rewrite IH.
Qed.

Lemma slice_from_app a b n :
  strings.slice_from (String.length a + n) (a +:+ b) = strings.slice_from n b.
Proof.
  induction a as [|x a IH]; [reflexivity | rewrite app_cons; exact IH].
Qed.

Lemma slice_from_0 s : strings.slice_from 0 s = s.
Proof. now destruct s. Qed.

Lemma slice_from_length s n :
  (String.length (strings.slice_from n s) <= String.length s)%nat.
Proof.
  revert s; induction n as [|n IH]; intros [|x s]; simpl; try lia.
  specialize (IH s); lia.
Qed.

Lemma HasPrefix_nil s : strings.HasPrefix s "" = true.
Proof. now destruct s. Qed.

(** The search for a one-byte separator, byte by byte. *)
Lemma Index_cons x s c :
  strings.Index (String x s) (String c "")
  = if Ascii.eqb c x then Some 0%nat
    else S <$> strings.Index s (String c "").
Proof.
  cbn [strings.Index strings.HasPrefix].
  destruct (Ascii.eqb c x); [now rewrite HasPrefix_nil | reflexivity].
Qed.

Lemma Index_nil c : strings.Index "" (String c "") = None.
Proof. reflexivity. Qed.

Lemma Index_app_sep a b c :
  strings.Index a (String c "") = None ->
  strings.Index (a +:+ String c b) (String c "") = Some (String.length a).
Proof.
  induction a as [|x a IH]; intros Hno.
  - rewrite app_nil_l. now rewrite Index_cons, Ascii.eqb_refl.
  - rewrite app_cons. rewrite Index_cons in Hno |- *.
    destruct (Ascii.eqb c x); [discriminate |].
    destruct (strings.Index a (String c "")); [discriminate |].
    now rewrite IH.
Qed.

Lemma Index_Some_split s c m :
  strings.Index s (String c "") = Some m ->
  s = strings.slice_to m s +:+ String c (strings.slice_from (m + 1) s)
  /\ strings.Index (strings.slice_to m s) (String c "") = None
  /\ String.length (strings.slice_to m s) = m.
Proof.
  revert m; induction s as [|x s IH]; intros m; [discriminate |].
  rewrite Index_cons. destruct (Ascii.eqb_spec c x) as [->|Hne].
  - intros [= <-]. simpl. now rewrite app_nil_l.
  - destruct (strings.Index s (String c "")) as [k|] eqn:Hk; [|discriminate].
    intros [= <-]. destruct (IH k eq_refl) as (Hs & Hno & Hlen).
    cbn [strings.slice_to strings.slice_from Nat.add String.length].
    rewrite app_cons, <- Hs, Hlen.
    split; [reflexivity | split; [|reflexivity]].
    rewrite Index_cons.
    destruct (Ascii.eqb_spec c x); [congruence | now rewrite Hno].
Qed.

Lemma Contains_false s sub :
  strings.Contains s sub = false <-> strings.Index s sub = None.
Proof.
  unfold strings.Contains. rewrite bool_decide_eq_false.
  destruct (strings.Index s sub); split; intros Hx;
    try discriminate; try reflexivity.
  - destruct Hx; eauto.
  - intros [? [=]].
Qed.

Lemma Contains_true s sub :
  strings.Contains s sub = true <-> is_Some (strings.Index s sub).
Proof. unfold strings.Contains. apply bool_decide_eq_true. Qed.

(** A string is longer than any of its proper prefixes. *)
Lemma app_neq a b : b <> "" -> a +:+ b <> a.
Proof.
  intros Hb Heq. apply (f_equal String.length) in Heq.
  rewrite length_app in Heq. destruct b; [congruence | simpl in Heq; lia].
Qed.

End StringFacts.

(** ** [SplitN], [Split] and [Join] *)

Section SplitFacts.

Implicit Types (s : string) (c : ascii) (vs : list string).

Lemma splitLoop_nonempty n s sep : strings.splitLoop n s sep <> [].
Proof. destruct n; simpl; [|destruct (strings.Index s sep)]; discriminate. Qed.

Lemma countLoop_le fuel s sep : (strings.countLoop fuel s sep <= fuel)%nat.
Proof.
  revert s; induction fuel as [|fuel IH]; intros s; simpl; [lia |].
  destruct (strings.Index s sep); [|lia].
  specialize (IH (strings.slice_from (n + String.length sep) s)); lia.
Qed.

(** [Split] cuts at every instance counted by [Count]. *)
Lemma Split_unfold s sep :
  strings.Split s sep
  = Some (strings.splitLoop (strings.Count s sep) s sep).
Proof.
  unfold strings.Split, strings.genSplit. simpl (_ =? _). cbv iota.
  replace (-1 <? 0) with true by reflexivity. cbv iota.
  pose proof (countLoop_le (String.length s) s sep) as Hle.
  fold (strings.Count s sep) in Hle. unfold strings.len.
  destruct (Z.gtb_spec (Z.of_nat (strings.Count s sep) + 1)
              (Z.of_nat (String.length s) + 1)); [lia |].
  do 2 f_equal. lia.
Qed.

(** [SplitN] with [n = 2] cuts at the first instance, if any. *)
Lemma SplitN_2 s c :
  strings.SplitN s (String c "") 2
  = Some match strings.Index s (String c "") with
         | None => [s]
         | Some m => [strings.slice_to m s; strings.slice_from (m + 1) s]
         end.
Proof.
  unfold strings.SplitN, strings.genSplit, strings.len. simpl (_ =? _).
  cbv iota. replace (2 <? 0) with false by reflexivity. cbv iota.
  destruct s as [|x s].
  - reflexivity.
  - destruct (Z.gtb_spec 2 (Z.of_nat (String.length (String x s)) + 1)) as [Hgt|_].
    + simpl String.length in Hgt. lia.
    + replace (Z.to_nat (2 - 1)) with 1%nat by reflexivity.
      cbn [strings.splitLoop]. now destruct (strings.Index _ _).
Qed.

Lemma Join_cons2 v v' vs sep :
  strings.Join (v :: v' :: vs) sep = v +:+ sep +:+ strings.Join (v' :: vs) sep.
Proof. reflexivity. Qed.

Lemma Index_Join c v vs :
  sep_free c (v :: vs) ->
  strings.Index (strings.Join (v :: vs) (String c "")) (String c "")
  = match vs with [] => None | _ => Some (String.length v) end.
Proof.
  intros Hfree. inversion Hfree as [|? ? Hv Hvs]; subst.
  destruct vs as [|v' vs]; [exact Hv |].
  rewrite Join_cons2, app_cons, app_nil_l. now apply Index_app_sep.
Qed.

Lemma slice_Join c v v' vs :
  strings.slice_to (String.length v)
    (strings.Join (v :: v' :: vs) (String c "")) = v
  /\ strings.slice_from (String.length v + 1)
       (strings.Join (v :: v' :: vs) (String c ""))
     = strings.Join (v' :: vs) (String c "").
Proof.
  rewrite Join_cons2, app_cons, app_nil_l. split.
  - apply slice_to_app.
  - rewrite slice_from_app. reflexivity.
Qed.

Lemma countLoop_Join c vs fuel :
  sep_free c vs -> (length vs - 1 <= fuel)%nat ->
  strings.countLoop fuel (strings.Join vs (String c "")) (String c "")
  = (length vs - 1)%nat.
Proof.
  revert fuel; induction vs as [|v vs IH]; intros fuel Hfree Hfuel.
  - destruct fuel; reflexivity.
  - destruct fuel as [|fuel].
    + simpl in *. lia.
    + cbn [strings.countLoop]. rewrite (Index_Join c v vs Hfree).
      destruct vs as [|v' vs]; [reflexivity |].
      replace (String.length (String c "")) with 1%nat by reflexivity.
      destruct (slice_Join c v v' vs) as [_ ->].
      inversion Hfree; subst. rewrite IH; [| assumption | simpl in *; lia].
      simpl. lia.
Qed.

Lemma length_Join c vs :
  (length vs - 1 <= String.length (strings.Join vs (String c "")))%nat.
Proof.
  induction vs as [|v vs IH]; [simpl; lia |].
  destruct vs as [|v' vs]; [simpl; lia |].
  rewrite Join_cons2, !length_app. simpl in *. lia.
Qed.

Lemma splitLoop_Join c vs :
  sep_free c vs -> vs <> [] ->
  strings.splitLoop (length vs - 1) (strings.Join vs (String c ""))
    (String c "") = vs.
Proof.
  induction vs as [|v vs IH]; intros Hfree Hne; [congruence |].
  destruct vs as [|v' vs]; [reflexivity |].
  replace (length (v :: v' :: vs) - 1)%nat with (S (length (v' :: vs) - 1))
    by (simpl; lia).
  cbn [strings.splitLoop]. rewrite (Index_Join c v (v' :: vs) Hfree).
  replace (String.length (String c "")) with 1%nat by reflexivity.
  destruct (slice_Join c v v' vs) as [-> ->].
  inversion Hfree; subst. rewrite IH; [reflexivity | assumption | discriminate].
Qed.

(** Splitting undoes joining, for a non-empty list of separator-free
    strings. *)
Lemma Split_Join c vs :
  sep_free c vs -> vs <> [] ->
  strings.Split (strings.Join vs (String c "")) (String c "") = Some vs.
Proof.
  intros Hfree Hne. rewrite Split_unfold. unfold strings.Count.
  rewrite countLoop_Join by (auto using length_Join).
  now rewrite splitLoop_Join.
Qed.

End SplitFacts.

(** ** The tag micro-format *)

Section TagCodec.

Implicit Types (t : Tagging) (s : string).

Lemma Tagging_String_nil t :
  elems (Versions t) = [] -> Tagging_String t = Name t.
Proof. unfold Tagging_String. now intros ->. Qed.

Lemma Tagging_String_cons t v vs :
  elems (Versions t) = v :: vs ->
  Tagging_String t = Name t +:+ ":" +:+ strings.Join (v :: vs) ",".
Proof. unfold Tagging_String. now intros ->. Qed.

(** What [ParseTagging] returns, by the place of the first colon. *)
Lemma ParseTagging_unfold s :
  ParseTagging s
  = Returned match strings.Index s ":" with
             | None => mkTagging s None
             | Some m =>
                 mkTagging (strings.slice_to m s)
                   (strings.Split (strings.slice_from (m + 1) s) ",")
             end.
Proof.
  unfold ParseTagging. rewrite SplitN_2.
  now destruct (strings.Index s ":").
Qed.

Lemma ParseTagging_no_colon s :
  strings.Index s ":" = None -> ParseTagging s = Returned (mkTagging s None).
Proof. intros Hno. now rewrite ParseTagging_unfold, Hno. Qed.

Lemma ParseTagging_colon name rest :
  strings.Index name ":" = None ->
  ParseTagging (name +:+ ":" +:+ rest)
  = Returned (mkTagging name (strings.Split rest ",")).
Proof.
  intros Hno. rewrite ParseTagging_unfold.
  rewrite app_cons, app_nil_l, (Index_app_sep name rest ":" Hno).
  now rewrite slice_to_app, slice_from_app.
Qed.

End TagCodec.

(** C6, the claim as written fails: a tag whose versions are the empty,
    non-nil sequence is written as its bare name, with no colon. *)
Lemma Tagging_String_empty_versions :
  Versions (mkTagging "go" (Some [])) <> None
  /\ Tagging_String (mkTagging "go" (Some [])) = "go"
  /\ Tagging_String (mkTagging "go" (Some []))
     <> Name (mkTagging "go" (Some [])) +:+ ":"
        +:+ strings.Join (elems (Versions (mkTagging "go" (Some [])))) ",".
Proof. repeat split; discriminate. Qed.

(** C6, as amended: [Tagging.String] writes just the name exactly when the
    versions have no element, be they nil or empty; for every tag with at
    least one version it writes the name, a colon and the versions joined
    by commas. *)
Theorem Tagging_String_cases (t : Tagging) :
  (Tagging_String t = Name t <-> elems (Versions t) = [])
  /\ Tagging_String t
     = match elems (Versions t) with
       | [] => Name t
       | _ => Name t +:+ ":" +:+ strings.Join (elems (Versions t)) ","
       end.
Proof.
  destruct (elems (Versions t)) as [|v vs] eqn:Hvs.
  - rewrite (Tagging_String_nil t Hvs). now split.
  - rewrite (Tagging_String_cons t v vs Hvs). split; [|reflexivity].
    split; [|discriminate]. intros Heq. exfalso.
    revert Heq. apply app_neq. discriminate.
Qed.




(** C8, the claim as written fails: a token that ends in a colon and holds
    an earlier one is cut at the first colon only, so its single version is
    what follows that colon, the last colon included, and not the empty
    string. *)
Lemma ParseTagging_trailing_colon :
  ParseTagging "a:b:" = Returned (mkTagging "a" (Some ["b:"]))
  /\ ParseTagging "::" = Returned (mkTagging "" (Some [":"]))
  /\ (forall t, ParseTagging "a:b:" = Returned t -> Versions t <> Some [""])
  /\ (forall t, ParseTagging "::" = Returned t -> Versions t <> Some [""]).
Proof.
  split; [reflexivity |]. split; [reflexivity |].
  split; intros t [= <-]; discriminate.
Qed.

(** C8, as amended: [ParseTagging] returns for every input, and the
    versions of its result are nil or hold at least one string, never the
    empty non-nil sequence; a token without a colon has nil versions, and a
    token that ends in its only colon has the single version [""]. *)
Theorem ParseTagging_versions (s : string) :
  (exists t, ParseTagging s = Returned t
     /\ (Versions t = None \/ (1 <= length (elems (Versions t)))%nat)
     /\ Versions t <> Some [])
  /\ (strings.Contains s ":" = false ->
      ParseTagging s = Returned (mkTagging s None)
      /\ ParseTagging (s +:+ ":") = Returned (mkTagging s (Some [""]))).
Proof.
  split.
  - rewrite ParseTagging_unfold. eexists; split; [reflexivity |].
    destruct (strings.Index s ":") as [m|]; cbn [Versions].
    + rewrite Split_unfold. cbn [elems default].
      pose proof (splitLoop_nonempty
                    (strings.Count (strings.slice_from (m + 1) s) ",")
                    (strings.slice_from (m + 1) s) ",") as Hne.
      destruct (strings.splitLoop _ _ _); [congruence |].
      split; [right; simpl; lia | discriminate].
    + split; [now left | discriminate].
  - intros Hno%Contains_false. split; [now apply ParseTagging_no_colon |].
    change (s +:+ ":") with (s +:+ ":" +:+ "").
    now rewrite (ParseTagging_colon s "" Hno).
Qed.

Lemma ParseTagging_versions_witness :
  ParseTagging "bar" = Returned (mkTagging "bar" None)
  /\ ParseTagging ("bar" +:+ ":") = Returned (mkTagging "bar" (Some [""])).
Proof. apply (proj2 (ParseTagging_versions "bar")). reflexivity. Defined.

(** ** The wire form of a tag *)

(** C5: a tag named [go] with nil versions is written [{"name":"go"}], with
    versions [["1.x"]] it is written [{"name":"go", "tags":["1.x"]}]; for
    every tag the name is written as it is and the versions follow under the
    key ["tags"] exactly when they are not nil. *)
Theorem Tagging_MarshalJSON_wire :
  Tagging_MarshalJSON (mkTagging "go" None)
  = Returned ("{" +:+ quoted "name" +:+ ":" +:+ quoted "go" +:+ "}")
  /\ Tagging_MarshalJSON (mkTagging "go" (Some ["1.x"]))
     = Returned ("{" +:+ quoted "name" +:+ ":" +:+ quoted "go" +:+ ", "
                 +:+ quoted "tags" +:+ ":" +:+ "[" +:+ quoted "1.x" +:+ "]"
                 +:+ "}")
  /\ forall t : Tagging,
       Tagging_MarshalJSON t
       = Returned
           ("{" +:+ quoted "name" +:+ ":" +:+ quoted (Name t)
            +:+ match Versions t with
                | None => ""
                | Some vs =>
                    ", " +:+ quoted "tags" +:+ ":" +:+ "["
                    +:+ strings.Join (json.appendString <$> vs) "," +:+ "]"
                end
            +:+ "}").
Proof.
  split; [reflexivity | split; [reflexivity |]].
  intros [name [vs|]]; unfold Tagging_MarshalJSON, quoted;
    cbn [Name Versions json.Marshal_strings mbind mret outcome_bind outcome_ret];
    rewrite ?app_assoc, ?app_nil_l, ?app_cons; reflexivity.
Qed.

(** ** The front matter parser *)

Section Parser.

Context `{Externals}.

Lemma parseTags_returns tokens tags :
  exists ts, parseTags tokens tags = Returned ts.
Proof.
  revert tags; induction tokens as [|t tokens IH]; intros tags; cbn.
  - eauto.
  - rewrite ParseTagging_unfold. cbn. apply IH.
Qed.

(** [ParseMarkdown] has no error result: it returns an item or panics. *)
Lemma ParseMarkdown_not_Failed src e : ParseMarkdown src <> Failed e.
Proof.
  unfold ParseMarkdown, index, assert_string, assert_bool.
  repeat (cbn; first
    [ discriminate
    | match goal with
      | |- context [parseTags ?l ?t] =>
          destruct (parseTags_returns l t) as [? ->]
      | |- context [match ?x with _ => _ end] =>
          lazymatch x with
          | context [match _ with _ => _ end] => fail
          | _ => destruct x eqn:?
          end
      end ]).
Qed.

(** The parse of a document in three sections, once the decoder has read
    a string title. *)
Lemma ParseMarkdown_sections src preamble front body :
  strings.SplitN src ("---" +:+ nl) 3 = Some [preamble; front; body] ->
  ParseMarkdown src
  = (title ← assert_string (default YNil (yaml_Unmarshal front !! "title"));
     private ← match yaml_Unmarshal front !! "private" with
               | Some priv => assert_bool priv
               | None => mret true
               end;
     tags ← match yaml_Unmarshal front !! "tags" with
            | Some YNil | None => mret None
            | Some tagv =>
                s ← assert_string tagv;
                parseTags (elems (strings.Split s " ")) None
            end;
     mret (mkItem "" title body "" private tags (mkTime 0 0) (mkTime 0 0))).
Proof. unfold ParseMarkdown. now intros ->. Qed.

End Parser.

(** C7: on a document in three sections whose front matter the decoder reads
    with a string title, a boolean or missing [private] and the [tags] field
    [foo:1.0,2.0 bar], [ParseMarkdown] returns an item with exactly two
    tags, in order: [foo] with versions [1.0] and [2.0], then [bar] with nil
    versions. *)
Theorem ParseMarkdown_tags `{Externals}
    (src preamble front body title : string) :
  strings.SplitN src ("---" +:+ nl) 3 = Some [preamble; front; body] ->
  yaml_Unmarshal front !! "title" = Some (YString title) ->
  (yaml_Unmarshal front !! "private" = None
   \/ exists b, yaml_Unmarshal front !! "private" = Some (YBool b)) ->
  yaml_Unmarshal front !! "tags" = Some (YString "foo:1.0,2.0 bar") ->
  exists item,
    ParseMarkdown src = Returned item
    /\ Tags item
       = Some [mkTagging "foo" (Some ["1.0"; "2.0"]); mkTagging "bar" None].
Proof.
  intros Hsec Htitle Hpriv Htags.
  rewrite (ParseMarkdown_sections _ _ _ _ Hsec), Htitle, Htags.
  destruct Hpriv as [-> | [b ->]]; eexists; split; reflexivity.
Qed.

Lemma ParseMarkdown_tags_witness :
  exists item,
    @ParseMarkdown sample.externals doc_tags = Returned item
    /\ Tags item
       = Some [mkTagging "foo" (Some ["1.0"; "2.0"]); mkTagging "bar" None].
Proof.
  apply (@ParseMarkdown_tags sample.externals doc_tags ""
           ("title: Hello" +:+ nl +:+ "tags: foo:1.0,2.0 bar" +:+ nl)
           "Body text here." "Hello").
  - vm_compute. reflexivity.
  - vm_compute. reflexivity.
  - left. vm_compute. reflexivity.
  - vm_compute. reflexivity.
Defined.

(** C4, the claim as written fails: a document without [title] makes
    [ParseMarkdown] panic on the type assertion, and so do a boolean title
    and a title above the largest [int64], which is stored as a [uint64];
    none is an error result. *)
Lemma ParseMarkdown_title_crash :
  @ParseMarkdown sample.externals doc_no_title
  = Panicked (InterfaceConversion "nil" "string")
  /\ @ParseMarkdown sample.externals doc_bool_title
     = Panicked (InterfaceConversion "bool" "string")
  /\ ~ (exists e, @ParseMarkdown sample.externals doc_no_title = Failed e)
  /\ ~ (exists e, @ParseMarkdown sample.externals doc_bool_title = Failed e)
  /\ @ParseMarkdown sample.externals doc_big_title
     = Panicked (InterfaceConversion "uint64" "string").
Proof.
  split; [vm_compute; reflexivity |].
  split; [vm_compute; reflexivity |].
  split; [intros [e He]; revert He; apply ParseMarkdown_not_Failed |].
  split; [intros [e He]; revert He; apply ParseMarkdown_not_Failed |].
  vm_compute; reflexivity.
Qed.

(** C4, as amended: [ParseMarkdown] has no error result at all; on a
    document in three sections whose decoded front matter lacks [title] it
    panics with the failed conversion of nil to [string], and when [title]
    is present but not a string it panics with the failed conversion of that
    value's type to [string]: [bool], [int], [int64], [uint64], [float64],
    a sequence or a mapping. *)
Theorem ParseMarkdown_title_panics `{Externals}
    (src preamble front body : string) :
  strings.SplitN src ("---" +:+ nl) 3 = Some [preamble; front; body] ->
  (forall e, ParseMarkdown src <> Failed e)
  /\ (yaml_Unmarshal front !! "title" = None ->
      ParseMarkdown src = Panicked (InterfaceConversion "nil" "string"))
  /\ (forall v, yaml_Unmarshal front !! "title" = Some v ->
      (forall s, v <> YString s) ->
      ParseMarkdown src
      = Panicked (InterfaceConversion (dynamic_type v) "string")).
Proof.
  intros Hsec. split; [intros e; apply ParseMarkdown_not_Failed |].
  rewrite (ParseMarkdown_sections _ _ _ _ Hsec). split.
  - now intros ->.
  - intros v -> Hv. destruct v; try reflexivity. now destruct (Hv s).
Qed.

Lemma ParseMarkdown_title_panics_witness :
  @ParseMarkdown sample.externals doc_no_title
  = Panicked (InterfaceConversion "nil" "string").
Proof.
  refine (proj1 (proj2 (@ParseMarkdown_title_panics sample.externals
            doc_no_title "" ("private: true" +:+ nl) "Body text here." _)) _).
  - vm_compute. reflexivity.
  - vm_compute. reflexivity.
Defined.

(** ** The client *)

Section Client.

Context `{Externals}.

Lemma compact_no_panic b p : json.compact b <> Panicked p.
Proof.
  unfold json.compact.
  destruct (json.eof _) as [scan []]; discriminate.
Qed.

Lemma Tagging_MarshalJSON_returns t :
  exists b, Tagging_MarshalJSON t = Returned b.
Proof. destruct t as [name [vs|]]; cbn; eauto. Qed.

Lemma marshalerEncoder_no_panic t p : marshalerEncoder t <> Panicked p.
Proof.
  unfold marshalerEncoder.
  destruct (Tagging_MarshalJSON_returns t) as [b ->].
  pose proof (compact_no_panic b) as Hc.
  destruct (json.compact b); try discriminate. now destruct (Hc p0).
Qed.

Lemma encodeElems_no_panic ts p : encodeElems ts <> Panicked p.
Proof.
  induction ts as [|t ts IH]; cbn; [discriminate |].
  destruct (marshalerEncoder t) eqn:Ht; cbn; try discriminate.
  - destruct (encodeElems ts); cbn; try discriminate. exact IH.
  - now apply marshalerEncoder_no_panic in Ht.
Qed.

Lemma encodeValue_no_panic v p : encodeValue v <> Panicked p.
Proof.
  destruct v as [s|b|[ts|]]; cbn; try discriminate.
  destruct (encodeElems ts) eqn:Hts; cbn; try discriminate.
  now apply encodeElems_no_panic in Hts.
Qed.

Lemma encodeFields_no_panic kvs p : encodeFields kvs <> Panicked p.
Proof.
  induction kvs as [|[k v] kvs IH]; cbn; [discriminate |].
  destruct (encodeValue v) eqn:Hv; cbn; try discriminate.
  - destruct (encodeFields kvs); cbn; try discriminate. exact IH.
  - now apply encodeValue_no_panic in Hv.
Qed.

Lemma Marshal_map_no_panic m p : Marshal_map m <> Panicked p.
Proof.
  unfold Marshal_map.
  destruct (encodeFields _) eqn:Hf; cbn; try discriminate.
  now apply encodeFields_no_panic in Hf.
Qed.

(** The empty input is not a JSON text. *)
Lemma Unmarshal_empty {A} (decode : string -> outcome A) :
  Unmarshal decode "" = Failed (SyntaxError UnexpectedEnd 0).
Proof. reflexivity. Qed.

(** The request [PostNewItem] builds, before [DoRequest] adds the
    authorization. *)
Lemma NewRequest_items postbytes :
  Header_Set
    (NewRequest "POST" "https://qiita.com/api/v2/items" (Some postbytes))
    "Content-Type" "application/json"
  = mkRequest "POST" (mkURL "https" "qiita.com" "/api/v2/items")
      {[ "Content-Type" := ["application/json"] ]} (Some postbytes).
Proof. reflexivity. Qed.

Lemma DoRequest_dry req w :
  dryRun w = true ->
  DoRequest req w
  = (Returned "",
     Println
       (fst (DumpRequest
               (Header_Set req "Authorization"
                  ("Bearer " +:+ Getenv w "QIITA_API_TOKEN")) true)) w).
Proof.
  intros Hdry. unfold DoRequest. rewrite Hdry.
  now destruct (DumpRequest _ _).
Qed.

End Client.

(** C9: with the dry-run flag set, [DoRequest] sets the [Authorization]
    header of the request to [Bearer ] followed by the value the environment
    gives to [QIITA_API_TOKEN] (nothing when it is unset) and leaves the
    rest of the request as it was, prints the dump of the request that
    carries this header, followed by a line feed, hands nothing to the
    network and returns the empty bytes with no error. *)
Theorem DoRequest_dryRun `{Externals} (req : Request) (w : World) :
  dryRun w = true ->
  exists req',
    req' = mkRequest (Method req) (Url req)
             (<["Authorization" :=
                  ["Bearer "
                   +:+ default "" (environ w !! "QIITA_API_TOKEN")]]>
                (Header req))
             (ReqBody req)
    /\ Header req' !! "Authorization"
       = Some ["Bearer " +:+ default "" (environ w !! "QIITA_API_TOKEN")]
    /\ (forall token, environ w !! "QIITA_API_TOKEN" = Some token ->
        Header req' !! "Authorization" = Some ["Bearer " +:+ token])
    /\ fst (DoRequest req w) = Returned ""
    /\ snd (DoRequest req w)
       = mkWorld true (environ w)
           (stdout w ++ [fst (DumpRequest req' true) +:+ nl]) (sent w)
    /\ stdout (snd (DoRequest req w))
       = stdout w ++ [fst (DumpRequest req' true) +:+ nl]
    /\ sent (snd (DoRequest req w)) = sent w.
Proof.
  intros Hdry. eexists; split; [reflexivity |].
  rewrite (DoRequest_dry req w Hdry).
  unfold Println, Header_Set, Getenv. rewrite Hdry. cbn.
  split; [apply lookup_insert_eq |].
  split; [intros token ->; apply lookup_insert_eq |].
  repeat split.
Qed.

Lemma DoRequest_dryRun_witness :
  @DoRequest sample.externals
    (NewRequest "GET" "https://qiita.com/api/v2/items" None) world_dry
  = (Returned "",
     mkWorld true {[ "QIITA_API_TOKEN" := "secret" ]}
       ["GET /api/v2/items HTTP/1.1" +:+ sample.crlf
        +:+ "Host: qiita.com" +:+ sample.crlf
        +:+ "Authorization: Bearer secret" +:+ sample.crlf
        +:+ sample.crlf +:+ nl]
       []).
Proof.
  destruct (@DoRequest_dryRun sample.externals
              (NewRequest "GET" "https://qiita.com/api/v2/items" None)
              world_dry eq_refl)
    as (req' & -> & _ & _ & Hfst & Hsnd & _).
  rewrite (surjective_pairing (DoRequest _ _)), Hfst, Hsnd.
  vm_compute. reflexivity.
Defined.

(** C3, what the code does: with the dry-run flag set, [PostNewItem] hands
    nothing to the network, but it never returns without error.  When the
    payload is encoded the request is the POST to [/api/v2/items] with that
    payload, its dump is printed, and the empty bytes that [DoRequest]
    returns are refused by [json.Unmarshal]. *)
Theorem PostNewItem_dryRun `{Externals} (item : Item) (w : World) :
  dryRun w = true ->
  (exists e, fst (PostNewItem item w) = Failed e)
  /\ sent (snd (PostNewItem item w)) = sent w
  /\ forall postbytes,
       Marshal_map (postdata item) = Returned postbytes ->
       PostNewItem item w
       = (Failed (Wrap (SyntaxError UnexpectedEnd 0) "failed to unmarshal"),
          Println
            (fst (DumpRequest
                    (mkRequest "POST"
                       (mkURL "https" "qiita.com" "/api/v2/items")
                       (<["Authorization" :=
                            ["Bearer " +:+ Getenv w "QIITA_API_TOKEN"]]>
                          {[ "Content-Type" := ["application/json"] ]})
                       (Some postbytes)) true)) w).
Proof.
  intros Hdry. unfold PostNewItem.
  destruct (Marshal_map (postdata item)) as [postbytes|e|p] eqn:Hm.
  - rewrite NewRequest_items, (DoRequest_dry _ w Hdry), Unmarshal_empty.
    split; [eauto | split; [reflexivity |]].
    now intros ? [= <-].
  - split; [eauto | split; [reflexivity | discriminate]].
  - now apply Marshal_map_no_panic in Hm.
Qed.

Lemma PostNewItem_dryRun_witness :
  (exists e, fst (@PostNewItem sample.externals item_go world_dry) = Failed e)
  /\ sent (snd (@PostNewItem sample.externals item_go world_dry))
     = sent world_dry.
Proof.
  split.
  - apply (@PostNewItem_dryRun sample.externals item_go world_dry eq_refl).
  - apply (@PostNewItem_dryRun sample.externals item_go world_dry eq_refl).
Defined.

(** The payload of the sample item, and what the dry run of its post prints
    and returns. *)
Lemma PostNewItem_dryRun_sample :
  Marshal_map (postdata item_go)
  = Returned
      ("{" +:+ quoted "body" +:+ ":" +:+ quoted "B" +:+ ","
       +:+ quoted "private" +:+ ":true,"
       +:+ quoted "tags" +:+ ":[{" +:+ quoted "name" +:+ ":" +:+ quoted "go"
       +:+ "," +:+ quoted "tags" +:+ ":[" +:+ quoted "1.x" +:+ "]}],"
       +:+ quoted "title" +:+ ":" +:+ quoted "T" +:+ "}")
  /\ fst (@PostNewItem sample.externals item_go world_dry)
     = Failed (Wrap (SyntaxError UnexpectedEnd 0) "failed to unmarshal")
  /\ sent (snd (@PostNewItem sample.externals item_go world_dry)) = [].
Proof. repeat split; vm_compute; reflexivity. Qed.

(** ** The round trip through Markdown *)

(** C1, what the code does: the document with title [Q&A] and body
    [1 + 1 = 2] parses, renders and parses again, but the second parse has
    the HTML-escaped title and body, not those of the first. *)
Lemma ParseMarkdown_ToMarkdown_escapes :
  exists it md it',
    @ParseMarkdown sample.externals doc_sum = Returned it
    /\ ToMarkdown it = Returned md
    /\ @ParseMarkdown sample.externals md = Returned it'
    /\ Title it = "Q&A" /\ Title it' = "Q&amp;A"
    /\ Body it = "1 + 1 = 2" +:+ nl /\ Body it' = "1 &#43; 1 = 2" +:+ nl
    /\ Private it' = Private it /\ Tags it' = Tags it.
Proof.
  do 3 eexists. repeat split; vm_compute; reflexivity.
Qed.

(** ** The scanner on what the encoder writes *)

#[local] Abbreviation run := json.checkValidLoop.

Lemma byte_range c : 0 <= byte c < 256.
Proof.
  unfold byte. pose proof (N_ascii_bounded c) as Hb. lia.
Qed.

Lemma chr_byte c : chr (byte c) = c.
Proof. unfold chr, byte. rewrite N2Z.id. apply ascii_N_embedding. Qed.

Lemma byte_inj c d : byte c = byte d -> c = d.
Proof. intros Heq. rewrite <- (chr_byte c), <- (chr_byte d). now f_equal. Qed.

Lemma eqc_byte c x : json.eqc c (String x "") = (byte c =? byte x).
Proof.
  unfold json.eqc. destruct (Ascii.eqb_spec c x) as [->|Hne].
  - now rewrite Z.eqb_refl.
  - symmetry. apply Z.eqb_neq. intros Heq. now apply Hne, byte_inj.
Qed.

Lemma run_app s a b :
  json.checkValidLoop s (a +:+ b)
  = match json.checkValidLoop s a with
    | inl s' => json.checkValidLoop s' b
    | inr e => inr e
    end.
Proof.
  revert s; induction a as [|c a IH]; intros s; [reflexivity |].
  rewrite app_cons. cbn [json.checkValidLoop].
  destruct (json.step_ (json.tick s) c) as [s' []]; auto.
Qed.

Lemma step_plain c ps n :
  needs_escape c = false ->
  json.step_ (json.tick (scanning json.stateInString ps n)) c
  = (scanning json.stateInString ps (n + 1), json.scanContinue).
Proof.
  unfold needs_escape. intros Hc.
  apply orb_false_elim in Hc as [Hc H32]. apply orb_false_elim in Hc as [H34 H92].
  unfold json.step_, json.tick, scanning. cbn [json.step].
  unfold dq. rewrite !eqc_byte.
  change (byte "034") with 34. change (byte "\") with 92.
  now rewrite H34, H92, H32.
Qed.

Lemma run_plain name ps n :
  plain name = true ->
  json.checkValidLoop (scanning json.stateInString ps n) name
  = inl (scanning json.stateInString ps (n + strings.len name)).
Proof.
  revert n; induction name as [|c name IH]; intros n Hp.
  - cbn. unfold strings.len. cbn. now rewrite Z.add_0_r.
  - cbn [plain] in Hp. apply andb_prop in Hp as [Hc Hp].
    apply negb_true_iff in Hc.
    cbn [json.checkValidLoop]. rewrite (step_plain c ps n Hc).
    rewrite (IH _ Hp). unfold strings.len. cbn [String.length].
    do 2 f_equal. lia.
Qed.

Lemma plain_high c : 128 <= byte c -> needs_escape c = false.
Proof.
  intros Hc. unfold needs_escape.
  destruct (Z.eqb_spec (byte c) 34); [lia |].
  destruct (Z.eqb_spec (byte c) 92); [lia |].
  destruct (Z.ltb_spec (byte c) 32); [lia | reflexivity].
Qed.

Lemma acceptRanges_lo x :
  In x [utf8.s1; utf8.s2; utf8.s3; utf8.s4; utf8.s5; utf8.s6; utf8.s7] ->
  128 <= fst (utf8.acceptRanges (Z.shiftr x 4)).
Proof.
  cbn [In]. intros Hx.
  repeat (destruct Hx as [<-|Hx]; [vm_compute; discriminate |]).
  destruct Hx.
Qed.

Lemma first_cases b :
  128 <= b ->
  utf8.first b = utf8.xx
  \/ In (utf8.first b)
       [utf8.s1; utf8.s2; utf8.s3; utf8.s4; utf8.s5; utf8.s6; utf8.s7].
Proof.
  intros Hb. unfold utf8.first.
  repeat match goal with
         | |- context [if ?x <? ?y then _ else _] => destruct (Z.ltb_spec x y)
         | |- context [if ?x =? ?y then _ else _] => destruct (Z.eqb_spec x y)
         end; try lia; cbn [In]; auto 10.
Qed.

(** The bytes of a rune that the decoder accepts at a byte above 0x7f, and
    that byte alone when it refuses, are all above 0x7f. *)
Lemma DecodeRune_plain c rest r size :
  128 <= byte c ->
  utf8.DecodeRuneInString (strings.slice_to 4 (String c rest)) = (r, size) ->
  plain (strings.slice_to size (String c rest)) = true.
Proof.
  intros Hc. assert (Hone : plain (strings.slice_to 1 (String c rest)) = true).
  { cbn. now rewrite (plain_high c Hc). }
  unfold utf8.DecodeRuneInString. cbn [strings.slice_to].
  destruct (first_cases (byte c) Hc) as [Hx|Hx].
  - rewrite Hx. vm_compute (utf8.xx >=? utf8.as_). cbv iota.
    now intros [= <- <-].
  - pose proof (acceptRanges_lo _ Hx) as Hlo.
    assert (Hge : (utf8.first (byte c) >=? utf8.as_) = false).
    { cbn [In] in Hx.
      repeat (destruct Hx as [<-|Hx]; [reflexivity |]). destruct Hx. }
    rewrite Hge.
    destruct (strings.len _ <? _); [now intros [= <- <-] |].
    destruct rest as [|c1 rest]; cbn [strings.slice_to]; [now intros [= <- <-] |].
    destruct (Z.ltb_spec (byte c1) (fst (utf8.acceptRanges
                (Z.shiftr (utf8.first (byte c)) 4)))) as [|H1];
      cbn [orb]; [now intros [= <- <-] |].
    destruct (_ <? byte c1); [now intros [= <- <-] |].
    assert (Hp1 : needs_escape c1 = false) by (apply plain_high; lia).
    destruct (_ <=? 2).
    { intros [= <- <-]. cbn. now rewrite (plain_high c Hc), Hp1. }
    destruct rest as [|c2 rest]; cbn [strings.slice_to]; [now intros [= <- <-] |].
    destruct (Z.ltb_spec (byte c2) utf8.locb) as [|H2];
      cbn [orb]; [now intros [= <- <-] |].
    destruct (_ <? byte c2); [now intros [= <- <-] |].
    assert (Hp2 : needs_escape c2 = false)
      by (apply plain_high; unfold utf8.locb in H2; lia).
    destruct (_ <=? 3).
    { intros [= <- <-]. cbn. now rewrite (plain_high c Hc), Hp1, Hp2. }
    destruct rest as [|c3 rest]; cbn [strings.slice_to]; [now intros [= <- <-] |].
    destruct (Z.ltb_spec (byte c3) utf8.locb) as [|H3];
      cbn [orb]; [now intros [= <- <-] |].
    destruct (_ <? byte c3); [now intros [= <- <-] |].
    assert (Hp3 : needs_escape c3 = false)
      by (apply plain_high; unfold utf8.locb in H3; lia).
    intros [= <- <-]. cbn. now rewrite (plain_high c Hc), Hp1, Hp2, Hp3.
Qed.

Lemma step_backslash ps n :
  json.step_ (json.tick (scanning json.stateInString ps n)) "\"
  = (scanning json.stateInStringEsc ps (n + 1), json.scanContinue).
Proof. reflexivity. Qed.

Lemma step_escaped x ps n :
  In x ["b"; "f"; "n"; "r"; "t"; "\"; "/"; "034"]%char ->
  json.step_ (json.tick (scanning json.stateInStringEsc ps n)) x
  = (scanning json.stateInString ps (n + 1), json.scanContinue).
Proof.
  cbn [In]. intros Hx.
  repeat (destruct Hx as [<-|Hx]; [reflexivity |]). destruct Hx.
Qed.

Lemma step_u ps n :
  json.step_ (json.tick (scanning json.stateInStringEsc ps n)) "u"
  = (scanning json.stateInStringEscU ps (n + 1), json.scanContinue).
Proof. reflexivity. Qed.

Lemma step_hex f f' c ps n :
  In (f, f') [(json.stateInStringEscU, json.stateInStringEscU1);
              (json.stateInStringEscU1, json.stateInStringEscU12);
              (json.stateInStringEscU12, json.stateInStringEscU123);
              (json.stateInStringEscU123, json.stateInString)] ->
  json.isHex c = true ->
  json.step_ (json.tick (scanning f ps n)) c
  = (scanning f' ps (n + 1), json.scanContinue).
Proof.
  cbn [In]. intros Hf Hc.
  repeat (destruct Hf as [[= <- <-]|Hf];
          [unfold json.step_; cbn [json.step json.tick scanning];
           now rewrite Hc |]).
  destruct Hf.
Qed.

Lemma isHex_hex d : 0 <= d < 16 -> json.isHex (hex d) = true.
Proof.
  intros Hd.
  assert (Hcases : In d [0;1;2;3;4;5;6;7;8;9;10;11;12;13;14;15])
    by (cbn [In]; lia).
  cbn [In] in Hcases.
  repeat (destruct Hcases as [<-|Hcases]; [reflexivity |]). destruct Hcases.
Qed.

Lemma run_step s c rest s' :
  json.step_ (json.tick s) c = (s', json.scanContinue) ->
  run s (String c rest) = run s' rest.
Proof. intros Hstep. cbn [json.checkValidLoop]. now rewrite Hstep. Qed.

(** Two-byte escapes and [\uXXXX] escapes keep the scanner in the string. *)
Lemma run_escape2 x ps n :
  In x ["b"; "f"; "n"; "r"; "t"; "\"; "/"; "034"]%char ->
  run (scanning json.stateInString ps n) (String "\" (String x ""))
  = inl (scanning json.stateInString ps (n + 1 + 1)).
Proof.
  intros Hx.
  rewrite (run_step _ _ _ _ (step_backslash ps n)).
  now rewrite (run_step _ _ _ _ (step_escaped x ps _ Hx)).
Qed.

Lemma run_escape_u h1 h2 h3 h4 ps n :
  json.isHex h1 = true -> json.isHex h2 = true ->
  json.isHex h3 = true -> json.isHex h4 = true ->
  run (scanning json.stateInString ps n)
    (String "\" (String "u" (String h1 (String h2 (String h3 (String h4 ""))))))
  = inl (scanning json.stateInString ps (n + 1 + 1 + 1 + 1 + 1 + 1)).
Proof.
  intros H1 H2 H3 H4.
  rewrite (run_step _ _ _ _ (step_backslash ps n)).
  rewrite (run_step _ _ _ _ (step_u ps _)).
  rewrite (run_step _ _ _ _
             (step_hex json.stateInStringEscU json.stateInStringEscU1
                h1 ps _ ltac:(cbn; auto) H1)).
  rewrite (run_step _ _ _ _
             (step_hex json.stateInStringEscU1 json.stateInStringEscU12
                h2 ps _ ltac:(cbn; auto) H2)).
  rewrite (run_step _ _ _ _
             (step_hex json.stateInStringEscU12 json.stateInStringEscU123
                h3 ps _ ltac:(cbn; auto 6) H3)).
  now rewrite (run_step _ _ _ _
                 (step_hex json.stateInStringEscU123 json.stateInString
                    h4 ps _ ltac:(cbn; auto 6) H4)).
Qed.

Lemma appendStringLoop_cons fuel c rest :
  json.appendStringLoop (S fuel) (String c rest)
  = if byte c <? utf8.RuneSelf then
      (if json.htmlSafeSet (byte c) then String c ""
       else if (byte c =? 92) || (byte c =? 34) then String "\" (String c "")
       else if byte c =? 8 then "\b"
       else if byte c =? 12 then "\f"
       else if byte c =? 10 then "\n"
       else if byte c =? 13 then "\r"
       else if byte c =? 9 then "\t"
       else "\u00" +:+ String (hex (Z.shiftr (byte c) 4))
                         (String (hex (Z.land (byte c) 15)) ""))
      +:+ json.appendStringLoop fuel rest
    else
      let '(r, size) :=
        utf8.DecodeRuneInString (strings.slice_to 4 (String c rest)) in
      (if (r =? utf8.RuneError) && (size =? 1)%nat then "\ufffd"
       else if (r =? 0x2028) || (r =? 0x2029) then
         "\u202" +:+ String (hex (Z.land r 15)) ""
       else strings.slice_to size (String c rest))
      +:+ json.appendStringLoop fuel (strings.slice_from size (String c rest)).
Proof. reflexivity. Qed.

(** Whatever [appendString] writes between the quotes keeps the scanner in
    the string. *)
Lemma run_appendStringLoop fuel src ps n :
  exists n',
    run (scanning json.stateInString ps n) (json.appendStringLoop fuel src)
    = inl (scanning json.stateInString ps n').
Proof.
  revert src n; induction fuel as [|fuel IH]; intros src n.
  { exists n. now destruct src. }
  destruct src as [|c rest]; [now exists n |].
  rewrite appendStringLoop_cons.
  assert (Hnext : forall piece n1 tail,
             run (scanning json.stateInString ps n) piece
             = inl (scanning json.stateInString ps n1) ->
             exists n',
               run (scanning json.stateInString ps n)
                 (piece +:+ json.appendStringLoop fuel tail)
               = inl (scanning json.stateInString ps n')).
  { intros piece n1 tail Hpiece. rewrite run_app, Hpiece. apply IH. }
  pose proof (byte_range c) as Hb.
  destruct (Z.ltb_spec (byte c) utf8.RuneSelf) as [Hlow|Hhigh].
  - destruct (json.htmlSafeSet (byte c)) eqn:Hsafe.
    { eapply Hnext. apply (run_plain (String c "")). cbn.
      unfold json.htmlSafeSet in Hsafe. unfold needs_escape.
      destruct (Z.eqb_spec (byte c) 34), (Z.eqb_spec (byte c) 92),
        (Z.ltb_spec (byte c) 32), (Z.leb_spec 32 (byte c));
        cbn in *; try lia; try discriminate; try reflexivity;
        rewrite ?andb_false_r in Hsafe; discriminate. }
    destruct (Z.eqb_spec (byte c) 92) as [H92|_].
    { eapply Hnext, run_escape2. replace c with "\"%char
        by (apply byte_inj; now rewrite H92). cbn; auto 10. }
    destruct (Z.eqb_spec (byte c) 34) as [H34|_].
    { eapply Hnext, run_escape2. replace c with "034"%char
        by (apply byte_inj; now rewrite H34). cbn; auto 10. }
    cbn [orb].
    destruct (_ =? 8); [eapply Hnext, run_escape2; cbn; auto 10 |].
    destruct (_ =? 12); [eapply Hnext, run_escape2; cbn; auto 10 |].
    destruct (_ =? 10); [eapply Hnext, run_escape2; cbn; auto 10 |].
    destruct (_ =? 13); [eapply Hnext, run_escape2; cbn; auto 10 |].
    destruct (_ =? 9); [eapply Hnext, run_escape2; cbn; auto 10 |].
    eapply Hnext. change ("\u00" +:+ ?x) with (String "\" (String "u" (String "0" (String "0" x)))).
    apply run_escape_u; try reflexivity; apply isHex_hex.
    + rewrite Z.shiftr_div_pow2 by lia. change (2 ^ 4) with 16.
      unfold utf8.RuneSelf in Hlow. split.
      * apply Z.div_pos; lia.
      * apply Z.div_lt_upper_bound; lia.
    + change 15 with (Z.ones 4). rewrite Z.land_ones by lia.
      apply Z.mod_pos_bound. reflexivity.
  - destruct (utf8.DecodeRuneInString _) as [r size] eqn:Hdec.
    unfold utf8.RuneSelf in Hhigh.
    destruct ((r =? utf8.RuneError) && (size =? 1)%nat).
    { eapply Hnext. apply (run_escape_u "f" "f" "f" "d"); reflexivity. }
    destruct (Z.eqb_spec r 0x2028) as [->|_].
    { eapply Hnext. apply (run_escape_u "2" "0" "2" "8"); reflexivity. }
    destruct (Z.eqb_spec r 0x2029) as [->|_].
    { eapply Hnext. apply (run_escape_u "2" "0" "2" "9"); reflexivity. }
    cbn [orb]. eapply Hnext, run_plain.
    now apply (DecodeRune_plain c rest r size).
Qed.

Lemma Tagging_MarshalJSON_shape t :
  Tagging_MarshalJSON t
  = Returned (name_prefix +:+ Name t
              +:+ match Versions t with
                  | None => dq +:+ "}"
                  | Some vs =>
                      tags_infix
                      +:+ strings.Join (json.appendString <$> vs) ","
                      +:+ "]}"
                  end).
Proof.
  destruct t as [name [vs|]];
    unfold Tagging_MarshalJSON, name_prefix, tags_infix, quoted, dq;
    cbn [Name Versions json.Marshal_strings mbind mret outcome_bind outcome_ret];
    rewrite ?app_assoc, ?app_nil_l, ?app_cons; reflexivity.
Qed.

Lemma run_appendString f v ps n :
  f = json.stateBeginValue \/ f = json.stateBeginValueOrEmpty ->
  exists n',
    run (scanning f ps n) (json.appendString v)
    = inl (scanning json.stateEndValue ps n').
Proof.
  intros Hf. unfold json.appendString, dq. rewrite app_cons, app_nil_l.
  cbn [json.checkValidLoop].
  assert (Hopen : json.step_ (json.tick (scanning f ps n)) "034"
                  = (scanning json.stateInString ps (n + 1),
                     json.scanBeginLiteral))
    by (destruct Hf as [-> | ->]; reflexivity).
  rewrite Hopen, run_app.
  destruct (run_appendStringLoop (String.length v) v ps (n + 1)) as [n1 ->].
  eexists. reflexivity.
Qed.

Lemma run_Join f v vs ps n :
  f = json.stateBeginValue \/ f = json.stateBeginValueOrEmpty ->
  exists n',
    run (scanning f (json.parseArrayValue :: ps) n)
      (strings.Join (json.appendString <$> (v :: vs)) ",")
    = inl (scanning json.stateEndValue (json.parseArrayValue :: ps) n').
Proof.
  revert f v n; induction vs as [|v' vs IH]; intros f v n Hf.
  - apply run_appendString, Hf.
  - cbn [fmap list_fmap]. rewrite Join_cons2, run_app.
    destruct (run_appendString f v (json.parseArrayValue :: ps) n Hf) as [n1 ->].
    rewrite app_cons, app_nil_l. cbn [json.checkValidLoop].
    change (json.step_ (json.tick (scanning json.stateEndValue
                                     (json.parseArrayValue :: ps) n1)) ",")
      with (scanning json.stateBeginValue (json.parseArrayValue :: ps) (n1 + 1),
            json.scanArrayValue).
    apply (IH json.stateBeginValue v' (n1 + 1)). now left.
Qed.

Lemma run_app_inl s a b s' :
  run s a = inl s' -> run s (a +:+ b) = run s' b.
Proof. intros Ha. now rewrite run_app, Ha. Qed.

Lemma run_tags_infix n :
  run (scanning json.stateInString [json.parseObjectValue] n) tags_infix
  = inl (scanning json.stateBeginValueOrEmpty
           [json.parseArrayValue; json.parseObjectValue] (n + 11)).
Proof. cbv -[Z.add]. do 2 f_equal. lia. Qed.

Lemma run_close_object n :
  run (scanning json.stateInString [json.parseObjectValue] n) (dq +:+ "}")
  = inl (json.mkScanner json.stateEndTop true [] None (n + 2)).
Proof. cbv -[Z.add]. do 2 f_equal. lia. Qed.

Lemma run_close_array s n :
  s = scanning json.stateBeginValueOrEmpty
        [json.parseArrayValue; json.parseObjectValue] n
  \/ s = scanning json.stateEndValue
        [json.parseArrayValue; json.parseObjectValue] n ->
  run s "]}" = inl (json.mkScanner json.stateEndTop true [] None (n + 2)).
Proof. intros [-> | ->]; cbv -[Z.add]; do 2 f_equal; lia. Qed.

Lemma Valid_at_top data n :
  run json.reset data = inl (json.mkScanner json.stateEndTop true [] None n) ->
  json.Valid data = true.
Proof. unfold json.Valid, json.checkValid. now intros ->. Qed.

(** The output for a plain name is accepted by the scanner. *)
Lemma Tagging_MarshalJSON_plain_valid t :
  plain (Name t) = true -> valid_output (Tagging_MarshalJSON t) = true.
Proof.
  intros Hp. rewrite Tagging_MarshalJSON_shape. cbn [valid_output].
  set (n := 9 + strings.len (Name t)).
  assert (Hname : run json.reset (name_prefix +:+ Name t)
                  = inl (scanning json.stateInString [json.parseObjectValue] n)).
  { rewrite (run_app_inl json.reset name_prefix _
               (scanning json.stateInString [json.parseObjectValue] 9))
      by reflexivity.
    apply run_plain, Hp. }
  rewrite <- app_assoc.
  destruct (Versions t) as [[|v vs]|].
  - apply (Valid_at_top _ (n + 11 + 2)).
    rewrite (run_app_inl _ _ _ _ Hname), (run_app_inl _ _ _ _ (run_tags_infix n)).
    cbn [fmap list_fmap strings.Join]. rewrite app_nil_l.
    apply run_close_array. now left.
  - destruct (run_Join json.stateBeginValueOrEmpty v vs
                [json.parseObjectValue] (n + 11)) as [n1 Hn1]; [now right |].
    apply (Valid_at_top _ (n1 + 2)).
    rewrite (run_app_inl _ _ _ _ Hname), (run_app_inl _ _ _ _ (run_tags_infix n)).
    rewrite (run_app_inl _ _ _ _ Hn1).
    apply run_close_array. now right.
  - apply (Valid_at_top _ (n + 2)).
    rewrite (run_app_inl _ _ _ _ Hname). apply run_close_object.
Qed.

(** C10, the claim as written fails: a name made of escape sequences, or
    one that closes the string and opens another member, holds bytes that
    need escaping and is still written as a valid JSON text. *)
Lemma Tagging_MarshalJSON_valid_unescaped :
  plain (Name (mkTagging "\\" None)) = false
  /\ valid_output (Tagging_MarshalJSON (mkTagging "\\" None)) = true
  /\ plain (Name (mkTagging ("a" +:+ dq +:+ ", " +:+ quoted "b" +:+ ":"
                              +:+ dq +:+ "c") None)) = false
  /\ valid_output
       (Tagging_MarshalJSON
          (mkTagging ("a" +:+ dq +:+ ", " +:+ quoted "b" +:+ ":"
                      +:+ dq +:+ "c") None)) = true.
Proof. repeat split; vm_compute; reflexivity. Qed.

(** C10, as amended: [Tagging.MarshalJSON] writes the name between the
    quotes as it is, with no escaping; its output is a valid JSON text for
    every tag whose name holds no double quote, backslash or control byte
    (the converse fails), and for the tag whose name is the letter [a], a
    double quote and the letter [b] it is not valid. *)
Theorem Tagging_MarshalJSON_validity :
  (forall t : Tagging,
     exists rest,
       Tagging_MarshalJSON t
       = Returned (name_prefix +:+ Name t +:+ dq +:+ rest))
  /\ (forall t : Tagging,
       plain (Name t) = true ->
       valid_output (Tagging_MarshalJSON t) = true)
  /\ valid_output (Tagging_MarshalJSON (mkTagging ("a" +:+ dq +:+ "b") None))
     = false.
Proof.
  split; [|split; [exact Tagging_MarshalJSON_plain_valid | reflexivity]].
  intros t. rewrite Tagging_MarshalJSON_shape.
  destruct (Versions t) as [vs|]; eexists; unfold tags_infix;
    rewrite ?app_assoc; reflexivity.
Qed.

Lemma Tagging_MarshalJSON_validity_witness :
  valid_output (Tagging_MarshalJSON (mkTagging "go" (Some ["1.x"]))) = true.
Proof.
  apply (proj1 (proj2 Tagging_MarshalJSON_validity)
           (mkTagging "go" (Some ["1.x"]))).
  reflexivity.
Defined.

(** ** The fuel of the loops is enough *)

Lemma length_slice_from n s :
  String.length (strings.slice_from n s) = (String.length s - n)%nat.
Proof.
  revert s; induction n as [|n IH]; intros [|c s]; cbn; try lia. apply IH.
Qed.

Lemma HasPrefix_length s sub :
  strings.HasPrefix s sub = true -> (String.length sub <= String.length s)%nat.
Proof.
  revert s; induction sub as [|p sub IH]; intros [|c s]; cbn; try lia;
    try discriminate.
  destruct (Ascii.eqb p c); [|discriminate]. intros Hp%IH. lia.
Qed.

Lemma Index_bound s sub i :
  strings.Index s sub = Some i ->
  (i + String.length sub <= String.length s)%nat.
Proof.
  revert i; induction s as [|c s IH]; intros i; cbn [strings.Index].
  - destruct (strings.HasPrefix "" sub) eqn:Hp; [|discriminate].
    intros [= <-]. apply HasPrefix_length in Hp. lia.
  - destruct (strings.HasPrefix (String c s) sub) eqn:Hp.
    + intros [= <-]. apply HasPrefix_length in Hp. lia.
    + destruct (strings.Index s sub) as [k|]; [|discriminate].
      intros [= <-]. specialize (IH k eq_refl). cbn. lia.
Qed.

(** With a non-empty separator, more rounds than bytes change nothing:
    the loop of [Count] has stopped by then. *)
Lemma countLoop_fuel sub fuel s :
  sub <> "" -> (String.length s <= fuel)%nat ->
  strings.countLoop fuel s sub = strings.Count s sub.
Proof.
  intros Hsub. unfold strings.Count.
  remember (String.length s) as len eqn:Hlen.
  revert fuel s Hlen.
  induction len as [len IH] using lt_wf_ind; intros fuel s Hlen Hfuel.
  destruct fuel as [|fuel], len as [|len']; cbn [strings.countLoop];
    try lia; try reflexivity.
  - destruct (strings.Index s sub) as [i|] eqn:Hi; [|reflexivity].
    apply Index_bound in Hi. destruct sub; [congruence | cbn in Hi; lia].
  - destruct (strings.Index s sub) as [i|] eqn:Hi; [|reflexivity].
    pose proof (Index_bound _ _ _ Hi) as Hb.
    pose proof (length_slice_from (i + String.length sub) s) as Hl.
    assert (0 < String.length sub)%nat by (destruct sub; [congruence | cbn; lia]).
    f_equal.
    rewrite (IH (String.length (strings.slice_from (i + String.length sub) s)))
      by lia.
    symmetry. apply (IH (String.length (strings.slice_from (i + String.length sub) s)));
      lia.
Qed.

Lemma DecodeRune_size c rest r size :
  utf8.DecodeRuneInString (String c rest) = (r, size) -> (1 <= size)%nat.
Proof.
  unfold utf8.DecodeRuneInString.
  repeat match goal with
         | |- context [if ?b then _ else _] => destruct b
         | |- context [match ?s with "" => _ | String _ _ => _ end] =>
             destruct s
         end; intros [= <- <-]; lia.
Qed.

Lemma appendStringLoop_fuel fuel src :
  (String.length src <= fuel)%nat ->
  json.appendStringLoop fuel src
  = json.appendStringLoop (String.length src) src.
Proof.
  remember (String.length src) as len eqn:Hlen.
  revert fuel src Hlen.
  induction len as [len IH] using lt_wf_ind; intros fuel src Hlen Hfuel.
  destruct src as [|c rest]; [subst len; now destruct fuel |].
  cbn [String.length] in Hlen. subst len.
  destruct fuel as [|fuel]; [lia |].
  rewrite !appendStringLoop_cons.
  destruct (byte c <? utf8.RuneSelf).
  - f_equal. apply (IH (String.length rest)); lia.
  - destruct (utf8.DecodeRuneInString _) as [r size] eqn:Hdec.
    apply DecodeRune_size in Hdec.
    pose proof (length_slice_from size (String c rest)) as Hl.
    cbn [String.length] in Hl. f_equal.
    rewrite (IH (String.length (strings.slice_from size (String c rest))))
      by lia.
    symmetry.
    apply (IH (String.length (strings.slice_from size (String c rest)))); lia.
Qed.

Lemma htmlReplacerLoop_fuel fuel s :
  (String.length s <= fuel)%nat ->
  template.htmlReplacerLoop fuel s
  = template.htmlReplacerLoop (String.length s) s.
Proof.
  remember (String.length s) as len eqn:Hlen.
  revert fuel s Hlen.
  induction len as [len IH] using lt_wf_ind; intros fuel s Hlen Hfuel.
  destruct s as [|c rest]; [subst len; now destruct fuel |].
  cbn [String.length] in Hlen. subst len.
  destruct fuel as [|fuel]; [lia |].
  cbn [template.htmlReplacerLoop].
  destruct (utf8.DecodeRuneInString _) as [r w] eqn:Hdec.
  apply DecodeRune_size in Hdec.
  pose proof (length_slice_from w (String c rest)) as Hl.
  cbn [String.length] in Hl. f_equal.
  rewrite (IH (String.length (strings.slice_from w (String c rest)))) by lia.
  symmetry.
  apply (IH (String.length (strings.slice_from w (String c rest)))); lia.
Qed.

(** ** The tags that survive the round trip *)

(** Every piece [Split] cuts is free of the separator byte. *)
Lemma splitLoop_sep_free c s :
  sep_free c (strings.splitLoop (strings.Count s (String c "")) s (String c "")).
Proof.
  remember (String.length s) as len eqn:Hlen. revert s Hlen.
  induction len as [len IH] using lt_wf_ind; intros s Hlen.
  unfold strings.Count. rewrite <- Hlen.
  destruct len as [|len].
  - destruct s; [|discriminate]. repeat constructor.
  - cbn [strings.countLoop].
    destruct (strings.Index s (String c "")) as [m|] eqn:Hm.
    + cbn [strings.splitLoop]. rewrite Hm.
      destruct (Index_Some_split _ _ _ Hm) as (_ & Hfree & _).
      pose proof (Index_bound _ _ _ Hm) as Hb. cbn [String.length] in *.
      pose proof (length_slice_from (m + 1) s) as Hl.
      rewrite countLoop_fuel by (try discriminate; lia).
      constructor; [exact Hfree |].
      apply (IH (String.length (strings.slice_from (m + 1) s))); lia.
    + cbn [strings.splitLoop]. repeat constructor. exact Hm.
Qed.

(** The converse: a tag that survives the round trip has a colon-free name
    and nil or non-empty, comma-free versions. *)
Lemma ParseTagging_String_only (t : Tagging) :
  ParseTagging (Tagging_String t) = Returned t ->
  strings.Contains (Name t) ":" = false
  /\ Versions t <> Some []
  /\ Forall (fun v => strings.Contains v "," = false) (elems (Versions t)).
Proof.
  rewrite ParseTagging_unfold. intros [= Ht].
  destruct (strings.Index (Tagging_String t) ":") as [m|] eqn:Hm.
  - destruct (Index_Some_split _ _ _ Hm) as (_ & Hfree & _).
    rewrite <- Ht at 1 2 3. cbn [Name Versions]. rewrite Split_unfold.
    split; [now apply Contains_false |]. split.
    + intros [= Hnil]. now apply splitLoop_nonempty in Hnil.
    + cbn [elems default from_option id].
      eapply Forall_impl; [apply splitLoop_sep_free |].
      intros v Hv. now apply Contains_false.
  - rewrite <- Ht in *. cbn [Name Versions elems default from_option] in *.
    rewrite Tagging_String_nil in Hm by reflexivity. cbn [Name] in Hm.
    split; [now apply Contains_false |]. split; [discriminate | constructor].
Qed.

(** * The rest of the program *)

(** ** Splitting and joining again *)

Lemma Join_cons_nonempty v vs sep :
  vs <> [] -> strings.Join (v :: vs) sep = v +:+ sep +:+ strings.Join vs sep.
Proof. destruct vs; [congruence | reflexivity]. Qed.

(** The pieces [Split] cuts at a one-byte separator, joined by it, are the
    string again, and there is one piece more than [Count] counts. *)
Lemma splitLoop_Join_inv c s :
  strings.Join
    (strings.splitLoop (strings.Count s (String c "")) s (String c ""))
    (String c "") = s
  /\ length (strings.splitLoop (strings.Count s (String c "")) s (String c ""))
     = S (strings.Count s (String c "")).
Proof.
  remember (String.length s) as len eqn:Hlen. revert s Hlen.
  induction len as [len IH] using lt_wf_ind; intros s Hlen.
  unfold strings.Count. rewrite <- Hlen.
  destruct len as [|len].
  - destruct s; [|discriminate]. split; reflexivity.
  - cbn [strings.countLoop].
    destruct (strings.Index s (String c "")) as [m|] eqn:Hm.
    + cbn [strings.splitLoop]. rewrite Hm.
      destruct (Index_Some_split _ _ _ Hm) as (Hs & _ & _).
      pose proof (Index_bound _ _ _ Hm) as Hb. cbn [String.length] in *.
      pose proof (length_slice_from (m + 1) s) as Hl.
      rewrite countLoop_fuel by (try discriminate; lia).
      destruct (IH (String.length (strings.slice_from (m + 1) s))
                  ltac:(lia) (strings.slice_from (m + 1) s) eq_refl)
        as [HJ HL].
      split.
      * rewrite Join_cons_nonempty by apply splitLoop_nonempty.
        rewrite HJ, app_cons, app_nil_l. now rewrite <- Hs.
      * cbn [length]. now rewrite HL.
    + cbn [strings.splitLoop]. split; reflexivity.
Qed.

Lemma Split_Join_inv c s :
  exists pieces,
    strings.Split s (String c "") = Some pieces
    /\ strings.Join pieces (String c "") = s
    /\ length pieces = S (strings.Count s (String c "")).
Proof.
  rewrite Split_unfold. eexists; split; [reflexivity |].
  apply splitLoop_Join_inv.
Qed.

Lemma ParseTagging_String_inv (s : string) :
  exists t, ParseTagging s = Returned t /\ Tagging_String t = s.
Proof.
  rewrite ParseTagging_unfold. eexists; split; [reflexivity |].
  destruct (strings.Index s ":") as [m|] eqn:Hm.
  - destruct (Index_Some_split _ _ _ Hm) as (Hs & _ & _).
    destruct (Split_Join_inv "," (strings.slice_from (m + 1) s))
      as (pieces & Hsplit & Hjoin & Hlen).
    destruct pieces as [|v vs]; [discriminate |].
    rewrite (Tagging_String_cons _ v vs) by (cbn [Versions]; now rewrite Hsplit).
    cbn [Name]. rewrite Hjoin, app_cons, app_nil_l. now rewrite <- Hs.
  - now rewrite Tagging_String_nil.
Qed.

(** X1: the name [ParseTagging] returns holds no colon and no version holds
    a comma. *)
Theorem ParseTagging_separator_free (s : string) :
  exists t, ParseTagging s = Returned t
    /\ strings.Contains (Name t) ":" = false
    /\ Forall (fun v => strings.Contains v "," = false) (elems (Versions t)).
Proof.
  rewrite ParseTagging_unfold. eexists; split; [reflexivity |].
  destruct (strings.Index s ":") as [m|] eqn:Hm.
  - destruct (Index_Some_split _ _ _ Hm) as (_ & Hfree & _).
    cbn [Name Versions]. split; [now apply Contains_false |].
    rewrite Split_unfold. cbn [elems default from_option id].
    eapply Forall_impl; [apply splitLoop_sep_free |].
    intros v Hv. now apply Contains_false.
  - cbn [Name Versions]. split; [now apply Contains_false | constructor].
Qed.

(** ** The sections of a document *)

Lemma HasPrefix_app p b : strings.HasPrefix (p +:+ b) p = true.
Proof.
  induction p as [|x p IH]; [apply HasPrefix_nil |].
  rewrite app_cons. cbn [strings.HasPrefix]. now rewrite Ascii.eqb_refl.
Qed.

(** The delimiter cannot begin inside what precedes it: its last byte is a
    line feed and the bytes before are dashes. *)
Lemma HasPrefix_before_delimiter x a b :
  strings.HasPrefix (String x a) delimiter = false ->
  strings.HasPrefix (String x a +:+ delimiter +:+ b) delimiter = false.
Proof.
  unfold delimiter, nl. intros Hp.
  destruct a as [|y [|z [|u a]]];
    rewrite ?app_cons, ?app_nil_l in *; cbn [strings.HasPrefix] in *;
    revert Hp;
    repeat match goal with
           | |- context [Ascii.eqb ?p ?q] => destruct (Ascii.eqb p q) eqn:?
           end; try reflexivity; try discriminate; auto.
  rewrite HasPrefix_nil. discriminate.
Qed.

Lemma Index_delimiter a b :
  strings.Index a delimiter = None ->
  strings.Index (a +:+ delimiter +:+ b) delimiter = Some (String.length a).
Proof.
  induction a as [|x a IH]; intros Hno.
  - rewrite app_nil_l. unfold strings.Index.
    destruct (delimiter +:+ b) eqn:Hd; [discriminate |].
    rewrite <- Hd, HasPrefix_app. reflexivity.
  - cbn [strings.Index] in Hno.
    destruct (strings.HasPrefix (String x a) delimiter) eqn:Hp; [discriminate |].
    destruct (strings.Index a delimiter) eqn:Ha; [discriminate |].
    pose proof (HasPrefix_before_delimiter x a b Hp) as Hp'.
    rewrite app_cons in *. cbn [strings.Index]. rewrite Hp', (IH eq_refl).
    reflexivity.
Qed.

Lemma slice_from_app_exact a b :
  strings.slice_from (String.length a) (a +:+ b) = b.
Proof.
  rewrite <- (Nat.add_0_r (String.length a)), slice_from_app.
  apply slice_from_0.
Qed.

Lemma splitLoop_no_sep rounds s sep :
  strings.Index s sep = None -> strings.splitLoop rounds s sep = [s].
Proof. intros Hno. destruct rounds; cbn; now rewrite ?Hno. Qed.

Lemma SplitN_no_sep s sep n :
  n <> 0 -> strings.Index s sep = None -> strings.SplitN s sep n = Some [s].
Proof.
  intros Hn Hno. unfold strings.SplitN, strings.genSplit.
  destruct (Z.eqb_spec n 0); [congruence |].
  now rewrite splitLoop_no_sep.
Qed.

Lemma delimiter_length : String.length delimiter = 4%nat.
Proof. reflexivity. Qed.

(** A text with one delimiter has two sections, one with two has three, and
    the third is all that follows the second delimiter. *)
Lemma SplitN_3_rounds s :
  (4 <= String.length s)%nat ->
  strings.SplitN s delimiter 3 = Some (strings.splitLoop 2 s delimiter).
Proof.
  intros Hlen. unfold strings.SplitN, strings.genSplit, strings.len.
  cbn [Z.eqb Z.ltb Z.compare].
  destruct (Z.gtb_spec 3 (Z.of_nat (String.length s) + 1)); [lia |].
  reflexivity.
Qed.

Lemma SplitN_one_delimiter pre rest :
  strings.Index pre delimiter = None ->
  strings.Index rest delimiter = None ->
  strings.SplitN (pre +:+ delimiter +:+ rest) delimiter 3 = Some [pre; rest].
Proof.
  intros Hpre Hrest.
  rewrite SplitN_3_rounds by (rewrite !length_app, delimiter_length; lia).
  cbn [strings.splitLoop]. rewrite (Index_delimiter pre rest Hpre).
  rewrite slice_to_app, slice_from_app, slice_from_app_exact, Hrest.
  reflexivity.
Qed.

Lemma SplitN_two_delimiters pre front body :
  strings.Index pre delimiter = None ->
  strings.Index front delimiter = None ->
  strings.SplitN (pre +:+ delimiter +:+ front +:+ delimiter +:+ body)
    delimiter 3 = Some [pre; front; body].
Proof.
  intros Hpre Hfront.
  rewrite SplitN_3_rounds by (rewrite !length_app, delimiter_length; lia).
  cbn [strings.splitLoop]. rewrite (Index_delimiter pre _ Hpre).
  rewrite slice_to_app, slice_from_app, slice_from_app_exact.
  rewrite (Index_delimiter front body Hfront).
  rewrite slice_to_app, slice_from_app, slice_from_app_exact.
  reflexivity.
Qed.

(** ** More of the front matter parser *)

Section ParserFacts.

Context `{Externals}.

(** The loop over the tokens parses each one and appends it. *)
Lemma parseTags_spec tokens acc :
  exists ts,
    parseTags tokens acc
    = Returned (match tokens with [] => acc | _ => Some (elems acc ++ ts) end)
    /\ length ts = length tokens
    /\ Tagging_String <$> ts = tokens.
Proof.
  revert acc; induction tokens as [|tok tokens IH]; intros acc.
  - exists []. repeat split.
  - destruct (ParseTagging_String_inv tok) as (tag & Htag & Hstr).
    destruct (IH (append acc tag)) as (ts & Hts & Hlen & Hmap).
    exists (tag :: ts). cbn [parseTags]. rewrite Htag. cbn. rewrite Hts.
    split; [|split; [cbn; now rewrite Hlen | cbn; now rewrite Hstr, Hmap]].
    f_equal. destruct tokens as [|tok' tokens].
    + destruct ts; [reflexivity | discriminate].
    + unfold append, elems. cbn. now rewrite <- List.app_assoc.
Qed.

Lemma ParseMarkdown_one_section src :
  strings.Index src delimiter = None ->
  ParseMarkdown src = Panicked (IndexOutOfRange 1 1).
Proof.
  intros Hno. unfold ParseMarkdown.
  change ("---" +:+ nl) with delimiter.
  now rewrite (SplitN_no_sep src delimiter 3 ltac:(lia) Hno).
Qed.

Lemma ParseMarkdown_two_sections pre rest :
  strings.Index pre delimiter = None ->
  strings.Index rest delimiter = None ->
  ParseMarkdown (pre +:+ delimiter +:+ rest) = Panicked (IndexOutOfRange 2 2).
Proof.
  intros Hpre Hrest. unfold ParseMarkdown.
  change ("---" +:+ nl) with delimiter.
  now rewrite (SplitN_one_delimiter pre rest Hpre Hrest).
Qed.

End ParserFacts.

(** X2: a text without the delimiter line makes [ParseMarkdown] panic on
    [sections[1]], and a text with a single delimiter line on
    [sections[2]]. *)
Theorem ParseMarkdown_malformed `{Externals} (pre rest : string) :
  strings.Index pre delimiter = None ->
  strings.Index rest delimiter = None ->
  ParseMarkdown pre = Panicked (IndexOutOfRange 1 1)
  /\ ParseMarkdown (pre +:+ delimiter +:+ rest) = Panicked (IndexOutOfRange 2 2).
Proof.
  intros Hpre Hrest. split.
  - now apply ParseMarkdown_one_section.
  - now apply ParseMarkdown_two_sections.
Qed.

Lemma ParseMarkdown_malformed_witness :
  @ParseMarkdown sample.externals "title: Hello"
  = Panicked (IndexOutOfRange 1 1)
  /\ @ParseMarkdown sample.externals
       ("title: Hello" +:+ delimiter +:+ "Body text here.")
     = Panicked (IndexOutOfRange 2 2).
Proof.
  apply (@ParseMarkdown_malformed sample.externals
           "title: Hello" "Body text here."); reflexivity.
Defined.

(** X3: on a text with two delimiter lines, [ParseMarkdown] drops what
    precedes the first, reads the front matter between them and takes all
    that follows the second as the body, unchanged, further delimiter lines
    included; [private] is [true] unless the front matter gives a boolean,
    no [tags] or a null one leaves the tags nil, and the fields the service
    fills stay at their zero values. *)
Theorem ParseMarkdown_document `{Externals}
    (pre front body title : string) (priv : option bool) :
  strings.Index pre delimiter = None ->
  strings.Index front delimiter = None ->
  yaml_Unmarshal front !! "title" = Some (YString title) ->
  yaml_Unmarshal front !! "private" = YBool <$> priv ->
  (yaml_Unmarshal front !! "tags" = None
   \/ yaml_Unmarshal front !! "tags" = Some YNil) ->
  ParseMarkdown (pre +:+ delimiter +:+ front +:+ delimiter +:+ body)
  = Returned (mkItem "" title body "" (default true priv) None
                (mkTime 0 0) (mkTime 0 0)).
Proof.
  intros Hpre Hfront Htitle Hpriv Htags.
  rewrite (ParseMarkdown_sections _ pre front body
             (SplitN_two_delimiters pre front body Hpre Hfront)).
  rewrite Htitle, Hpriv.
  destruct priv as [b|], Htags as [-> | ->]; reflexivity.
Qed.

Lemma ParseMarkdown_document_witness :
  @ParseMarkdown sample.externals
    ("draft" +:+ delimiter +:+ ("title: Hello" +:+ nl) +:+ delimiter
     +:+ ("a" +:+ nl +:+ delimiter +:+ "b"))
  = Returned (mkItem "" "Hello" ("a" +:+ nl +:+ delimiter +:+ "b") "" true None
                (mkTime 0 0) (mkTime 0 0)).
Proof.
  apply (@ParseMarkdown_document sample.externals "draft"
           ("title: Hello" +:+ nl) ("a" +:+ nl +:+ delimiter +:+ "b")
           "Hello" None).
  - reflexivity.
  - reflexivity.
  - vm_compute. reflexivity.
  - vm_compute. reflexivity.
  - left. vm_compute. reflexivity.
Defined.

(** X4: a [private] that is present but not a boolean, the null of an empty
    value included, makes [ParseMarkdown] panic on the conversion to
    [bool]; with [private] in order, a [tags] that is neither null nor a
    string makes it panic on the conversion to [string].  The panic names
    the type the decoder stored: [int], [int64] or [uint64] for an integer,
    by its size. *)
Theorem ParseMarkdown_type_mismatch `{Externals}
    (src pre front body title : string) (v : yaml_value) :
  strings.SplitN src ("---" +:+ nl) 3 = Some [pre; front; body] ->
  yaml_Unmarshal front !! "title" = Some (YString title) ->
  (yaml_Unmarshal front !! "private" = Some v ->
   (forall b, v <> YBool b) ->
   ParseMarkdown src = Panicked (InterfaceConversion (dynamic_type v) "bool"))
  /\ (forall priv : option bool,
        yaml_Unmarshal front !! "private" = YBool <$> priv ->
        yaml_Unmarshal front !! "tags" = Some v ->
        v <> YNil -> (forall s, v <> YString s) ->
        ParseMarkdown src
        = Panicked (InterfaceConversion (dynamic_type v) "string")).
Proof.
  intros Hsec Htitle.
  rewrite (ParseMarkdown_sections _ _ _ _ Hsec), Htitle. split.
  - intros -> Hv. destruct v; try reflexivity. now destruct (Hv b).
  - intros priv -> -> Hnil Hv.
    destruct priv; destruct v; try reflexivity; try congruence;
      now destruct (Hv s).
Qed.

Lemma ParseMarkdown_type_mismatch_witness :
  @ParseMarkdown sample.externals
    (document ["title: Hello"; "private:"] "Body text here.")
  = Panicked (InterfaceConversion "nil" "bool")
  /\ @ParseMarkdown sample.externals doc_big_private
     = Panicked (InterfaceConversion "uint64" "bool").
Proof.
  split.
  - refine (proj1 (@ParseMarkdown_type_mismatch sample.externals
              (document ["title: Hello"; "private:"] "Body text here.")
              "" ("title: Hello" +:+ nl +:+ "private:" +:+ nl)
              "Body text here." "Hello" YNil _ _) _ _).
    + vm_compute. reflexivity.
    + vm_compute. reflexivity.
    + vm_compute. reflexivity.
    + discriminate.
  - refine (proj1 (@ParseMarkdown_type_mismatch sample.externals
              doc_big_private
              "" ("title: Hello" +:+ nl
                  +:+ "private: 18446744073709551615" +:+ nl)
              "Body text here." "Hello" (YUint64 18446744073709551615)
              _ _) _ _).
    + vm_compute. reflexivity.
    + vm_compute. reflexivity.
    + vm_compute. reflexivity.
    + discriminate.
Defined.

(** X5: a string [tags] value is cut at every space: there is one tag more
    than the value has spaces, so never none, and the tags written again and
    joined by spaces are the value. *)
Theorem ParseMarkdown_tags_line `{Externals}
    (src pre front body title s : string) (priv : option bool) :
  strings.SplitN src ("---" +:+ nl) 3 = Some [pre; front; body] ->
  yaml_Unmarshal front !! "title" = Some (YString title) ->
  yaml_Unmarshal front !! "private" = YBool <$> priv ->
  yaml_Unmarshal front !! "tags" = Some (YString s) ->
  exists item ts,
    ParseMarkdown src = Returned item
    /\ Tags item = Some ts
    /\ length ts = S (strings.Count s " ")
    /\ strings.Join (Tagging_String <$> ts) " " = s.
Proof.
  intros Hsec Htitle Hpriv Htags.
  rewrite (ParseMarkdown_sections _ _ _ _ Hsec), Htitle, Hpriv, Htags.
  destruct (Split_Join_inv " " s) as (pieces & Hsplit & Hjoin & Hlen).
  destruct (parseTags_spec pieces None) as (ts & Hts & Hlts & Hmap).
  destruct pieces as [|p pieces]; [discriminate |].
  exists (mkItem "" title body "" (default true priv) (Some ts)
            (mkTime 0 0) (mkTime 0 0)), ts.
  split.
  - destruct priv; cbn -[strings.Split parseTags]; rewrite Hsplit;
      cbn -[parseTags]; rewrite Hts; reflexivity.
  - split; [reflexivity |]. split; [congruence |]. now rewrite Hmap.
Qed.

Lemma ParseMarkdown_tags_line_witness :
  exists item ts,
    @ParseMarkdown sample.externals
      (document ["title: Hello"; "tags: go:1.x  sample"] "B") = Returned item
    /\ Tags item = Some ts
    /\ length ts = S (strings.Count "go:1.x  sample" " ")
    /\ strings.Join (Tagging_String <$> ts) " " = "go:1.x  sample".
Proof.
  apply (@ParseMarkdown_tags_line sample.externals
           (document ["title: Hello"; "tags: go:1.x  sample"] "B")
           "" ("title: Hello" +:+ nl +:+ "tags: go:1.x  sample" +:+ nl)
           "B" "Hello" "go:1.x  sample" None).
  - vm_compute. reflexivity.
  - vm_compute. reflexivity.
  - vm_compute. reflexivity.
  - vm_compute. reflexivity.
Defined.

(** ** What [ToMarkdown] writes *)

Lemma all_bytes_app p a b :
  all_bytes p (a +:+ b) = all_bytes p a && all_bytes p b.
Proof.
  induction a as [|c a IH]; [reflexivity |].
  rewrite app_cons. cbn [all_bytes]. now rewrite IH, andb_assoc.
Qed.

Lemma DecodeRune_ascii c rest :
  byte c < 128 -> utf8.DecodeRuneInString (String c rest) = (byte c, 1%nat).
Proof.
  intros Hc. unfold utf8.DecodeRuneInString, utf8.first.
  destruct (Z.ltb_spec (byte c) 128); [reflexivity | lia].
Qed.

(** The bytes the decoder takes at a byte above 0x7f are all above 0x7f. *)
Lemma DecodeRune_high c rest r size :
  128 <= byte c ->
  utf8.DecodeRuneInString (String c rest) = (r, size) ->
  all_bytes (fun b => 128 <=? b) (strings.slice_to size (String c rest)) = true.
Proof.
  intros Hc.
  assert (Hhi : forall d, 128 <= byte d -> (128 <=? byte d) = true)
    by (intros d Hd; now apply Z.leb_le).
  unfold utf8.DecodeRuneInString.
  destruct (first_cases (byte c) Hc) as [Hx|Hx].
  - rewrite Hx. vm_compute (utf8.xx >=? utf8.as_). cbv iota.
    intros [= <- <-]. cbn. now rewrite (Hhi c Hc).
  - pose proof (acceptRanges_lo _ Hx) as Hlo.
    assert (Hge : (utf8.first (byte c) >=? utf8.as_) = false).
    { cbn [In] in Hx.
      repeat (destruct Hx as [<-|Hx]; [reflexivity |]). destruct Hx. }
    rewrite Hge.
    assert (Hone : forall t,
               all_bytes (fun b => 128 <=? b)
                 (strings.slice_to 1 (String c t)) = true)
      by (intros t; cbn; now rewrite (Hhi c Hc)).
    destruct (strings.len _ <? _); [intros [= <- <-]; apply Hone |].
    destruct rest as [|c1 rest]; [intros [= <- <-]; apply Hone |].
    destruct (Z.ltb_spec (byte c1) (fst (utf8.acceptRanges
                (Z.shiftr (utf8.first (byte c)) 4)))) as [|H1];
      cbn [orb]; [intros [= <- <-]; apply Hone |].
    destruct (_ <? byte c1); [intros [= <- <-]; apply Hone |].
    destruct (_ <=? 2).
    { intros [= <- <-]. cbn. rewrite (Hhi c Hc), (Hhi c1) by lia. reflexivity. }
    destruct rest as [|c2 rest]; [intros [= <- <-]; apply Hone |].
    destruct (Z.ltb_spec (byte c2) utf8.locb) as [|H2];
      cbn [orb]; [intros [= <- <-]; apply Hone |].
    destruct (_ <? byte c2); [intros [= <- <-]; apply Hone |].
    unfold utf8.locb in H2.
    destruct (_ <=? 3).
    { intros [= <- <-]. cbn.
      rewrite (Hhi c Hc), (Hhi c1), (Hhi c2) by lia. reflexivity. }
    destruct rest as [|c3 rest]; [intros [= <- <-]; apply Hone |].
    destruct (Z.ltb_spec (byte c3) utf8.locb) as [|H3];
      cbn [orb]; [intros [= <- <-]; apply Hone |].
    destruct (_ <? byte c3); [intros [= <- <-]; apply Hone |].
    unfold utf8.locb in H3.
    intros [= <- <-]. cbn.
    rewrite (Hhi c Hc), (Hhi c1), (Hhi c2), (Hhi c3) by lia. reflexivity.
Qed.

Lemma htmlReplacementTable_raw r :
  all_bytes (fun b => negb (html_raw b)) (template.htmlReplacementTable r)
  = true.
Proof.
  unfold template.htmlReplacementTable.
  repeat match goal with
         | |- context [if ?x =? ?y then _ else _] => destruct (x =? y)
         end; reflexivity.
Qed.

Lemma htmlReplacementTable_none b :
  html_replaced b = false -> template.htmlReplacementTable b = "".
Proof.
  unfold html_replaced, template.htmlReplacementTable. intros Hb.
  repeat match goal with
         | |- context [if ?x =? ?y then _ else _] =>
             destruct (x =? y) eqn:?; [cbn in Hb;
               rewrite ?orb_true_r in Hb; discriminate |]
         end; reflexivity.
Qed.

Lemma all_bytes_impl (p q : Z -> bool) s :
  (forall b, p b = true -> q b = true) ->
  all_bytes p s = true -> all_bytes q s = true.
Proof.
  intros Hpq. induction s as [|c s IH]; [reflexivity |]. cbn [all_bytes].
  intros [Hc Hs]%andb_prop. now rewrite (Hpq _ Hc), IH.
Qed.

Lemma htmlReplacementTable_some b :
  html_replaced b = true ->
  (b <? template.htmlReplacementTable_len)
  && negb (String.eqb (template.htmlReplacementTable b) "") = true.
Proof.
  unfold html_replaced. intros Hb.
  repeat (apply orb_prop in Hb as [Hb|Hb]);
    apply Z.eqb_eq in Hb; subst b; reflexivity.
Qed.

Lemma htmlReplacerLoop_cons fuel c rest :
  template.htmlReplacerLoop (S fuel) (String c rest)
  = let '(r, w) := utf8.DecodeRuneInString (String c rest) in
    (if (r <? template.htmlReplacementTable_len)
        && negb (String.eqb (template.htmlReplacementTable r) "")
     then template.htmlReplacementTable r
     else strings.slice_to w (String c rest))
    +:+ template.htmlReplacerLoop fuel (strings.slice_from w (String c rest)).
Proof. reflexivity. Qed.

(** Whatever the escaper writes holds none of the raw bytes. *)
Lemma htmlReplacerLoop_raw fuel s :
  all_bytes (fun b => negb (html_raw b)) (template.htmlReplacerLoop fuel s)
  = true.
Proof.
  revert s; induction fuel as [|fuel IH]; intros s; [now destruct s |].
  destruct s as [|c rest]; [reflexivity |].
  rewrite htmlReplacerLoop_cons.
  destruct (utf8.DecodeRuneInString (String c rest)) as [r w] eqn:Hdec.
  rewrite all_bytes_app, IH, andb_true_r.
  destruct (_ && _) eqn:Hcond; [apply htmlReplacementTable_raw |].
  destruct (Z.ltb_spec (byte c) 128) as [Hlow|Hhigh].
  - rewrite (DecodeRune_ascii c rest Hlow) in Hdec.
    injection Hdec as <- <-. cbn. rewrite andb_true_r.
    destruct (html_raw (byte c)) eqn:Hraw; [|reflexivity].
    unfold html_raw in Hraw. apply andb_prop in Hraw as [Hrep _].
    now rewrite (htmlReplacementTable_some _ Hrep) in Hcond.
  - eapply all_bytes_impl; [|exact (DecodeRune_high c rest r w Hhigh Hdec)].
    intros b Hb%Z.leb_le. unfold html_raw, html_replaced.
    repeat match goal with
           | |- context [b =? ?k] => destruct (Z.eqb_spec b k); [lia |]
           end.
    reflexivity.
Qed.

Lemma htmlEscaper_raw s :
  all_bytes (fun b => negb (html_raw b)) (template.htmlEscaper s) = true.
Proof. apply htmlReplacerLoop_raw. Qed.

(** The escaper leaves a string with no replaced byte as it is. *)
Lemma slice_to_from n s :
  strings.slice_to n s +:+ strings.slice_from n s = s.
Proof.
  revert s; induction n as [|n IH]; intros [|c s]; try reflexivity.
  cbn [strings.slice_to strings.slice_from]. now rewrite app_cons, IH.
Qed.

Lemma lor_ge_l x y : 0 <= y -> x <= Z.lor x y.
Proof.
  intros Hy. pose proof (Z.sub_lor_l_same_l y x) as Hsub.
  assert (0 <= Z.land y (Z.lnot x)) by (apply Z.land_nonneg; now left).
  lia.
Qed.

Lemma lor_ge_r x y : 0 <= x -> y <= Z.lor x y.
Proof. intros Hx. rewrite Z.lor_comm. now apply lor_ge_l. Qed.

Lemma land_low b n : 0 <= n -> Z.land b (Z.ones n) = b mod 2 ^ n.
Proof. intros Hn. now apply Z.land_ones. Qed.

Lemma cont_range c : 0 <= utf8.cont c < 64.
Proof.
  unfold utf8.cont, utf8.maskx. change 63 with (Z.ones 6).
  rewrite Z.land_ones by lia. apply Z.mod_pos_bound. reflexivity.
Qed.

Lemma cont_high c : 128 <= byte c <= 191 -> utf8.cont c = byte c - 128.
Proof.
  intros Hc. unfold utf8.cont, utf8.maskx. change 63 with (Z.ones 6).
  rewrite Z.land_ones by lia. change (2 ^ 6) with 64.
  symmetry. apply (Z.mod_unique _ _ 2); lia.
Qed.

Lemma lead_bits b n base :
  0 <= n -> base mod 2 ^ n = 0 -> base <= b < base + 2 ^ n ->
  Z.land b (Z.ones n) = b - base.
Proof.
  intros Hn Hbase Hb. rewrite Z.land_ones by lia.
  symmetry. apply (Z.mod_unique _ _ (base / 2 ^ n)); [lia |].
  pose proof (Z.div_mod base (2 ^ n) ltac:(lia)). lia.
Qed.

Lemma first_range b :
  128 <= b < 256 ->
  utf8.first b = utf8.xx
  \/ (utf8.first b = utf8.s1 /\ 194 <= b < 224)
  \/ (utf8.first b = utf8.s2 /\ b = 224)
  \/ (utf8.first b = utf8.s3 /\ 225 <= b < 240)
  \/ (utf8.first b = utf8.s4 /\ b = 237)
  \/ (utf8.first b = utf8.s5 /\ b = 240)
  \/ (utf8.first b = utf8.s6 /\ 241 <= b < 244)
  \/ (utf8.first b = utf8.s7 /\ b = 244).
Proof.
  intros Hb. unfold utf8.first.
  repeat match goal with
         | |- context [if ?x <? ?y then _ else _] => destruct (Z.ltb_spec x y)
         | |- context [if ?x =? ?y then _ else _] => destruct (Z.eqb_spec x y)
         end; try lia; auto 20 with zarith.
  all: try (right; left; split; [reflexivity | lia]).
  all: try (do 3 right; left; split; [reflexivity | lia]).
  all: try (do 6 right; left; split; [reflexivity | lia]).
Qed.

(** A rune decoded at a byte above 0x7f is itself above 0x7f. *)
Lemma DecodeRune_rune_high c rest r size :
  128 <= byte c ->
  utf8.DecodeRuneInString (String c rest) = (r, size) -> 128 <= r.
Proof.
  intros Hc. pose proof (byte_range c) as Hbc.
  assert (Herr : 128 <= utf8.RuneError) by (unfold utf8.RuneError; lia).
  unfold utf8.DecodeRuneInString.
  pose proof (first_range (byte c) ltac:(lia)) as Hfirst.
  destruct Hfirst as [Hx|Hfirst];
    [|repeat (destruct Hfirst as [[Hx Hr]|Hfirst]; [|try destruct Hfirst as [Hx Hr]])];
    rewrite Hx; cbv zeta.
  - vm_compute (utf8.xx >=? utf8.as_). cbv iota.
    vm_compute (Z.testbit utf8.xx 0). cbv iota. now intros [= <- <-].
  - (* two bytes *)
    vm_compute (utf8.s1 >=? utf8.as_). vm_compute (Z.land utf8.s1 7).
    vm_compute (utf8.acceptRanges (Z.shiftr utf8.s1 4)). cbv iota.
    destruct (_ <? 2); [now intros [= <- <-] |].
    destruct rest as [|c1 rest]; [now intros [= <- <-] |].
    destruct (_ || _); [now intros [= <- <-] |].
    vm_compute (2 <=? 2). cbv iota. intros [= <- <-].
    unfold utf8.mask2. change 31 with (Z.ones 5).
    rewrite (lead_bits (byte c) 5 192) by (try reflexivity; lia).
    rewrite Z.shiftl_mul_pow2 by lia. change (2 ^ 6) with 64.
    pose proof (cont_range c1).
    pose proof (lor_ge_l ((byte c - 192) * 64) (utf8.cont c1)). lia.
  - (* three bytes, lead 0xE0 *)
    vm_compute (utf8.s2 >=? utf8.as_). vm_compute (Z.land utf8.s2 7).
    vm_compute (utf8.acceptRanges (Z.shiftr utf8.s2 4)). cbv iota.
    cbn [fst snd].
    destruct (_ <? 3); [now intros [= <- <-] |].
    destruct rest as [|c1 rest]; [now intros [= <- <-] |].
    destruct (Z.ltb_spec (byte c1) 160); cbn [orb]; [now intros [= <- <-] |].
    destruct (Z.ltb_spec 191 (byte c1)); [now intros [= <- <-] |].
    vm_compute (3 <=? 2). cbv iota.
    destruct rest as [|c2 rest]; [now intros [= <- <-] |].
    destruct (_ || _); [now intros [= <- <-] |].
    vm_compute (3 <=? 3). cbv iota. intros [= <- <-].

    rewrite (cont_high c1) by lia.
    rewrite (Z.shiftl_mul_pow2 (byte c1 - 128)) by lia. change (2 ^ 6) with 64.
    pose proof (cont_range c2).
    assert (0 <= Z.shiftl (Z.land (byte c) utf8.mask3) 12)
      by (apply Z.shiftl_nonneg, Z.land_nonneg; left; lia).
    pose proof (lor_ge_r (Z.shiftl (Z.land (byte c) utf8.mask3) 12)
                  ((byte c1 - 128) * 64)).
    pose proof (lor_ge_l (Z.lor (Z.shiftl (Z.land (byte c) utf8.mask3) 12)
                            ((byte c1 - 128) * 64)) (utf8.cont c2)).
    lia.
  - (* three bytes, leads 0xE1 to 0xEF *)
    vm_compute (utf8.s3 >=? utf8.as_). vm_compute (Z.land utf8.s3 7).
    vm_compute (utf8.acceptRanges (Z.shiftr utf8.s3 4)). cbv iota.
    destruct (_ <? 3); [now intros [= <- <-] |].
    destruct rest as [|c1 rest]; [now intros [= <- <-] |].
    destruct (_ || _); [now intros [= <- <-] |].
    vm_compute (3 <=? 2). cbv iota.
    destruct rest as [|c2 rest]; [now intros [= <- <-] |].
    destruct (_ || _); [now intros [= <- <-] |].
    vm_compute (3 <=? 3). cbv iota. intros [= <- <-].
    unfold utf8.mask3. change 15 with (Z.ones 4).
    rewrite (lead_bits (byte c) 4 224) by (try reflexivity; lia).
    rewrite (Z.shiftl_mul_pow2 (byte c - 224)) by lia. change (2 ^ 12) with 4096.
    pose proof (cont_range c1). pose proof (cont_range c2).
    assert (0 <= Z.shiftl (utf8.cont c1) 6) by (apply Z.shiftl_nonneg; lia).
    pose proof (lor_ge_l ((byte c - 224) * 4096) (Z.shiftl (utf8.cont c1) 6)).
    pose proof (lor_ge_l (Z.lor ((byte c - 224) * 4096)
                            (Z.shiftl (utf8.cont c1) 6)) (utf8.cont c2)).
    lia.
  - (* three bytes, lead 0xED *)
    vm_compute (utf8.s4 >=? utf8.as_). vm_compute (Z.land utf8.s4 7).
    vm_compute (utf8.acceptRanges (Z.shiftr utf8.s4 4)). cbv iota.
    destruct (_ <? 3); [now intros [= <- <-] |].
    destruct rest as [|c1 rest]; [now intros [= <- <-] |].
    destruct (_ || _); [now intros [= <- <-] |].
    vm_compute (3 <=? 2). cbv iota.
    destruct rest as [|c2 rest]; [now intros [= <- <-] |].
    destruct (_ || _); [now intros [= <- <-] |].
    vm_compute (3 <=? 3). cbv iota. intros [= <- <-].
    rewrite Hr. vm_compute (Z.shiftl (Z.land 237 utf8.mask3) 12).
    pose proof (cont_range c1). pose proof (cont_range c2).
    assert (0 <= Z.shiftl (utf8.cont c1) 6) by (apply Z.shiftl_nonneg; lia).
    pose proof (lor_ge_l 53248 (Z.shiftl (utf8.cont c1) 6)).
    pose proof (lor_ge_l (Z.lor 53248 (Z.shiftl (utf8.cont c1) 6))
                  (utf8.cont c2)).
    lia.
  - (* four bytes, lead 0xF0 *)
    vm_compute (utf8.s5 >=? utf8.as_). vm_compute (Z.land utf8.s5 7).
    vm_compute (utf8.acceptRanges (Z.shiftr utf8.s5 4)). cbv iota.
    cbn [fst snd].
    destruct (_ <? 4); [now intros [= <- <-] |].
    destruct rest as [|c1 rest]; [now intros [= <- <-] |].
    destruct (Z.ltb_spec (byte c1) 144); cbn [orb]; [now intros [= <- <-] |].
    destruct (Z.ltb_spec 191 (byte c1)); [now intros [= <- <-] |].
    vm_compute (4 <=? 2). cbv iota.
    destruct rest as [|c2 rest]; [now intros [= <- <-] |].
    destruct (_ || _); [now intros [= <- <-] |].
    vm_compute (4 <=? 3). cbv iota.
    destruct rest as [|c3 rest]; [now intros [= <- <-] |].
    destruct (_ || _); [now intros [= <- <-] |].
    intros [= <- <-].
    rewrite (cont_high c1) by lia.
    rewrite (Z.shiftl_mul_pow2 (byte c1 - 128)) by lia.
    change (2 ^ 12) with 4096.
    pose proof (cont_range c2). pose proof (cont_range c3).
    assert (0 <= Z.shiftl (Z.land (byte c) utf8.mask4) 18)
      by (apply Z.shiftl_nonneg, Z.land_nonneg; left; lia).
    assert (0 <= Z.shiftl (utf8.cont c2) 6) by (apply Z.shiftl_nonneg; lia).
    pose proof (lor_ge_r (Z.shiftl (Z.land (byte c) utf8.mask4) 18)
                  ((byte c1 - 128) * 4096)).
    pose proof (lor_ge_l (Z.lor (Z.shiftl (Z.land (byte c) utf8.mask4) 18)
                            ((byte c1 - 128) * 4096))
                  (Z.shiftl (utf8.cont c2) 6)).
    pose proof (lor_ge_l
                  (Z.lor (Z.lor (Z.shiftl (Z.land (byte c) utf8.mask4) 18)
                                ((byte c1 - 128) * 4096))
                         (Z.shiftl (utf8.cont c2) 6)) (utf8.cont c3)).
    lia.
  - (* four bytes, leads 0xF1 to 0xF3 *)
    vm_compute (utf8.s6 >=? utf8.as_). vm_compute (Z.land utf8.s6 7).
    vm_compute (utf8.acceptRanges (Z.shiftr utf8.s6 4)). cbv iota.
    destruct (_ <? 4); [now intros [= <- <-] |].
    destruct rest as [|c1 rest]; [now intros [= <- <-] |].
    destruct (_ || _); [now intros [= <- <-] |].
    vm_compute (4 <=? 2). cbv iota.
    destruct rest as [|c2 rest]; [now intros [= <- <-] |].
    destruct (_ || _); [now intros [= <- <-] |].
    vm_compute (4 <=? 3). cbv iota.
    destruct rest as [|c3 rest]; [now intros [= <- <-] |].
    destruct (_ || _); [now intros [= <- <-] |].
    intros [= <- <-].
    unfold utf8.mask4. change 7 with (Z.ones 3).
    rewrite (lead_bits (byte c) 3 240) by (try reflexivity; lia).
    rewrite (Z.shiftl_mul_pow2 (byte c - 240)) by lia.
    change (2 ^ 18) with 262144.
    pose proof (cont_range c1). pose proof (cont_range c2).
    pose proof (cont_range c3).
    assert (0 <= Z.shiftl (utf8.cont c1) 12) by (apply Z.shiftl_nonneg; lia).
    assert (0 <= Z.shiftl (utf8.cont c2) 6) by (apply Z.shiftl_nonneg; lia).
    pose proof (lor_ge_l ((byte c - 240) * 262144)
                  (Z.shiftl (utf8.cont c1) 12)).
    pose proof (lor_ge_l (Z.lor ((byte c - 240) * 262144)
                            (Z.shiftl (utf8.cont c1) 12))
                  (Z.shiftl (utf8.cont c2) 6)).
    pose proof (lor_ge_l
                  (Z.lor (Z.lor ((byte c - 240) * 262144)
                                (Z.shiftl (utf8.cont c1) 12))
                         (Z.shiftl (utf8.cont c2) 6)) (utf8.cont c3)).
    lia.
  - (* four bytes, lead 0xF4 *)
    vm_compute (utf8.s7 >=? utf8.as_). vm_compute (Z.land utf8.s7 7).
    vm_compute (utf8.acceptRanges (Z.shiftr utf8.s7 4)). cbv iota.
    destruct (_ <? 4); [now intros [= <- <-] |].
    destruct rest as [|c1 rest]; [now intros [= <- <-] |].
    destruct (_ || _); [now intros [= <- <-] |].
    vm_compute (4 <=? 2). cbv iota.
    destruct rest as [|c2 rest]; [now intros [= <- <-] |].
    destruct (_ || _); [now intros [= <- <-] |].
    vm_compute (4 <=? 3). cbv iota.
    destruct rest as [|c3 rest]; [now intros [= <- <-] |].
    destruct (_ || _); [now intros [= <- <-] |].
    intros [= <- <-].
    rewrite Hr. vm_compute (Z.shiftl (Z.land 244 utf8.mask4) 18).
    pose proof (cont_range c1). pose proof (cont_range c2).
    pose proof (cont_range c3).
    assert (0 <= Z.shiftl (utf8.cont c1) 12) by (apply Z.shiftl_nonneg; lia).
    assert (0 <= Z.shiftl (utf8.cont c2) 6) by (apply Z.shiftl_nonneg; lia).
    pose proof (lor_ge_l 1048576 (Z.shiftl (utf8.cont c1) 12)).
    pose proof (lor_ge_l (Z.lor 1048576 (Z.shiftl (utf8.cont c1) 12))
                  (Z.shiftl (utf8.cont c2) 6)).
    pose proof (lor_ge_l
                  (Z.lor (Z.lor 1048576 (Z.shiftl (utf8.cont c1) 12))
                         (Z.shiftl (utf8.cont c2) 6)) (utf8.cont c3)).
    lia.
Qed.

Lemma all_bytes_slice_from p n s :
  all_bytes p s = true -> all_bytes p (strings.slice_from n s) = true.
Proof.
  revert s; induction n as [|n IH]; intros [|c s]; try easy.
  cbn [all_bytes strings.slice_from]. intros [_ Hs]%andb_prop. now apply IH.
Qed.

Lemma htmlReplacerLoop_id fuel s :
  (String.length s <= fuel)%nat ->
  all_bytes (fun b => negb (html_replaced b)) s = true ->
  template.htmlReplacerLoop fuel s = s.
Proof.
  revert s; induction fuel as [|fuel IH]; intros s Hlen Hs.
  { destruct s; [reflexivity | cbn in Hlen; lia]. }
  destruct s as [|c rest]; [reflexivity |].
  rewrite htmlReplacerLoop_cons.
  destruct (utf8.DecodeRuneInString (String c rest)) as [r w] eqn:Hdec.
  pose proof (DecodeRune_size c rest r w Hdec) as Hw.
  pose proof (length_slice_from w (String c rest)) as Hl.
  rewrite IH by (try apply all_bytes_slice_from; try assumption; lia).
  assert (Hcond : (r <? template.htmlReplacementTable_len)
                  && negb (String.eqb (template.htmlReplacementTable r) "")
                  = false).
  { destruct (Z.ltb_spec (byte c) 128) as [Hlow|Hhigh].
    - rewrite (DecodeRune_ascii c rest Hlow) in Hdec. injection Hdec as <- <-.
      cbn [all_bytes] in Hs. apply andb_prop in Hs as [Hc _].
      apply negb_true_iff in Hc.
      rewrite (htmlReplacementTable_none _ Hc). apply andb_false_r.
    - pose proof (DecodeRune_rune_high c rest r w Hhigh Hdec) as Hr.
      unfold template.htmlReplacementTable_len.
      destruct (Z.ltb_spec r 63); [lia | reflexivity]. }
  rewrite Hcond. apply slice_to_from.
Qed.

Lemma htmlEscaper_id s :
  all_bytes (fun b => negb (html_replaced b)) s = true ->
  template.htmlEscaper s = s.
Proof. intros Hs. now apply htmlReplacerLoop_id. Qed.

(** The tags line of the template. *)
Lemma tags_line_raw ts :
  all_bytes (fun b => negb (html_raw b))
    (foldr (fun t out => " " +:+ template.htmlEscaper (Tagging_String t) +:+ out)
       "" ts) = true.
Proof.
  induction ts as [|t ts IH]; [reflexivity |]. cbn [foldr].
  now rewrite !all_bytes_app, htmlEscaper_raw, IH.
Qed.

Lemma tags_line_id ts :
  Forall (fun t => all_bytes (fun b => negb (html_replaced b))
                     (Tagging_String t) = true) ts ->
  foldr (fun t out => " " +:+ template.htmlEscaper (Tagging_String t) +:+ out)
    "" ts
  = foldr (fun t out => " " +:+ Tagging_String t +:+ out) "" ts.
Proof.
  induction 1 as [|t ts Ht _ IH]; [reflexivity |]. cbn [foldr].
  now rewrite (htmlEscaper_id _ Ht), IH.
Qed.

(** X6: [ToMarkdown] always returns, and the text it returns holds no NUL,
    double quote, apostrophe, [+], [<] or [>], whatever the item holds. *)
Theorem ToMarkdown_no_raw (item : Item) :
  exists md,
    ToMarkdown item = Returned md
    /\ all_bytes (fun b => negb (html_raw b)) md = true.
Proof.
  eexists; split; [reflexivity |].
  rewrite !all_bytes_app, !htmlEscaper_raw, tags_line_raw.
  now destruct (Private item).
Qed.

Lemma ToMarkdown_unescaped (item : Item) :
  unescaped (Title item) = true ->
  Forall (fun t => unescaped (Tagging_String t) = true) (elems (Tags item)) ->
  unescaped (Body item) = true ->
  ToMarkdown item
  = Returned (delimiter +:+ front_matter item +:+ delimiter +:+ Body item).
Proof.
  intros Htitle Htags Hbody.
  unfold ToMarkdown, delimiter, front_matter. cbn [mret outcome_ret].
  rewrite (htmlEscaper_id _ Htitle), (htmlEscaper_id _ Hbody),
    (tags_line_id _ Htags).
  f_equal. rewrite ?app_assoc.
  destruct (Private item); reflexivity.
Qed.

(** X7: for an item whose title, written tags and body hold none of the
    bytes NUL, double quote, [&], apostrophe, [+], [<] and [>],
    [ToMarkdown] returns the delimiter line, the front matter, the delimiter
    line and the body, all as they are. *)
Theorem ToMarkdown_plain (item : Item) :
  unescaped (Title item) = true ->
  Forall (fun t => unescaped (Tagging_String t) = true) (elems (Tags item)) ->
  unescaped (Body item) = true ->
  ToMarkdown item
  = Returned (delimiter +:+ front_matter item +:+ delimiter +:+ Body item).
Proof. apply ToMarkdown_unescaped. Qed.

Lemma ToMarkdown_plain_witness :
  ToMarkdown item_hello
  = Returned
      (delimiter +:+ front_matter item_hello +:+ delimiter
       +:+ "Body text here.").
Proof.
  apply (ToMarkdown_plain item_hello).
  - reflexivity.
  - repeat constructor.
  - reflexivity.
Defined.

(** ** More of the client *)

Lemma postdata_sorted item :
  sortKeys (map_to_list (postdata item))
  = [("body", PostString (Body item)); ("private", PostBool (Private item));
     ("tags", PostTags (Tags item)); ("title", PostString (Title item))].
Proof. unfold postdata. vm_compute. reflexivity. Qed.

(** The payload has the four members [body], [private], [tags] and [title],
    in this order, and is refused exactly when its tags are. *)
Lemma Marshal_postdata item :
  Marshal_map (postdata item)
  = match encodeValue (PostTags (Tags item)) with
    | Returned tags => Returned (payload item tags)
    | Failed e => Failed e
    | Panicked p => Panicked p
    end.
Proof.
  unfold Marshal_map. rewrite postdata_sorted.
  cbn [encodeFields].
  remember (encodeValue (PostTags (Tags item))) as tv eqn:Htv. clear Htv.
  cbn [encodeValue mbind mret outcome_bind outcome_ret].
  destruct tv as [tags|e|p]; try reflexivity.
  cbn [mbind mret outcome_bind outcome_ret strings.Join]. f_equal.
  unfold payload.
  change (json.appendString "body") with (quoted "body").
  change (json.appendString "private") with (quoted "private").
  change (json.appendString "tags") with (quoted "tags").
  change (json.appendString "title") with (quoted "title").
  rewrite ?app_assoc, ?app_cons, ?app_nil_l.
  destruct (Private item); reflexivity.
Qed.

Section ClientFacts.

Context `{Externals}.

Lemma NewRequest_self_items :
  NewRequest "GET" "https://qiita.com/api/v2/authenticated_user/items" None
  = mkRequest "GET"
      (mkURL "https" "qiita.com" "/api/v2/authenticated_user/items") ∅ None.
Proof. reflexivity. Qed.

(** [DoRequest] outside the dry run: the request goes out with the
    authorization set, nothing is printed, and the result follows the
    transport and the read of the body, whatever the status code. *)
Lemma DoRequest_live req w :
  dryRun w = false ->
  DoRequest req w
  = (match client_Do (Header_Set req "Authorization"
                        ("Bearer " +:+ Getenv w "QIITA_API_TOKEN")) with
     | Panicked p => Panicked p
     | Failed err => Failed (Wrap err "failed to do request")
     | Returned resp =>
         match ReadAll resp with
         | Panicked p => Panicked p
         | Failed err => Failed (Wrap err "failed to read response body")
         | Returned res => Returned res
         end
     end,
     send (Header_Set req "Authorization"
             ("Bearer " +:+ Getenv w "QIITA_API_TOKEN")) w).
Proof.
  intros Hlive. unfold DoRequest. rewrite Hlive.
  destruct (client_Do _) as [resp|err|p]; try reflexivity.
  now destruct (ReadAll resp).
Qed.

Lemma PostNewItem_live item w postbytes :
  dryRun w = false ->
  Marshal_map (postdata item) = Returned postbytes ->
  PostNewItem item w
  = (match client_Do (items_request w postbytes) with
     | Panicked p => Panicked p
     | Failed err =>
         Failed (Wrap (Wrap err "failed to do request") "failed to DoRequest")
     | Returned resp =>
         match ReadAll resp with
         | Panicked p => Panicked p
         | Failed err =>
             Failed (Wrap (Wrap err "failed to read response body")
                       "failed to DoRequest")
         | Returned res =>
             match Unmarshal decodeItem res with
             | Panicked p => Panicked p
             | Failed err => Failed (Wrap err "failed to unmarshal")
             | Returned it => Returned it
             end
         end
     end,
     send (items_request w postbytes) w).
Proof.
  intros Hlive Hm. unfold PostNewItem. rewrite Hm, NewRequest_items.
  rewrite (DoRequest_live _ w Hlive).
  change (Header_Set _ "Authorization" _) with (items_request w postbytes).
  destruct (client_Do _) as [resp|err|p]; try reflexivity.
  destruct (ReadAll resp) as [res|err|p]; try reflexivity.
  now destruct (Unmarshal decodeItem res).
Qed.

Lemma GetSelfItems_live w :
  dryRun w = false ->
  GetSelfItems w
  = (match client_Do (self_items_request w) with
     | Panicked p => Panicked p
     | Failed err =>
         Failed (Wrap (Wrap err "failed to do request") "failed to DoRequest")
     | Returned resp =>
         match ReadAll resp with
         | Panicked p => Panicked p
         | Failed err =>
             Failed (Wrap (Wrap err "failed to read response body")
                       "failed to DoRequest")
         | Returned res =>
             match Unmarshal decodeItems res with
             | Panicked p => Panicked p
             | Failed err => Failed (Wrap err "failed to unmarshal")
             | Returned items => Returned items
             end
         end
     end,
     send (self_items_request w) w).
Proof.
  intros Hlive. unfold GetSelfItems. rewrite NewRequest_self_items.
  rewrite (DoRequest_live _ w Hlive).
  change (Header_Set _ "Authorization" _) with (self_items_request w).
  destruct (client_Do _) as [resp|err|p]; try reflexivity.
  destruct (ReadAll resp) as [res|err|p]; try reflexivity.
  now destruct (Unmarshal decodeItems res).
Qed.

Lemma GetSelfItems_dry w :
  dryRun w = true ->
  GetSelfItems w
  = (Failed (Wrap (SyntaxError UnexpectedEnd 0) "failed to unmarshal"),
     Println (fst (DumpRequest (self_items_request w) true)) w).
Proof.
  intros Hdry. unfold GetSelfItems. rewrite NewRequest_self_items.
  rewrite (DoRequest_dry _ w Hdry), Unmarshal_empty. reflexivity.
Qed.

(** One tag that the encoder refuses makes the whole payload refused. *)
Lemma encodeElems_refused ts t e :
  In t ts -> marshalerEncoder t = Failed e ->
  exists e', encodeElems ts = Failed e'.
Proof.
  induction ts as [|t' ts IH]; intros Hin Ht; [destruct Hin |].
  cbn [encodeElems].
  destruct (marshalerEncoder t') as [b|e1|p] eqn:Ht'; cbn.
  - destruct Hin as [->|Hin]; [congruence |].
    destruct (IH Hin Ht) as [e' ->]. cbn. eauto.
  - eauto.
  - now apply marshalerEncoder_no_panic in Ht'.
Qed.

Lemma PostNewItem_dry_fails item w :
  dryRun w = true -> exists e, fst (PostNewItem item w) = Failed e.
Proof.
  intros Hdry. unfold PostNewItem.
  destruct (Marshal_map (postdata item)) as [postbytes|e|p] eqn:Hm.
  - rewrite (DoRequest_dry _ w Hdry), Unmarshal_empty. cbn. eauto.
  - cbn. eauto.
  - now apply Marshal_map_no_panic in Hm.
Qed.

End ClientFacts.

(** X8: the payload [PostNewItem] encodes has exactly the members [body],
    [private], [tags] and [title], in this order, and none of the fields
    the service fills; it is refused exactly when the tags are, and nil
    tags are written [null]. *)
Theorem Marshal_postdata_members (item : Item) :
  Marshal_map (postdata item)
  = match encodeValue (PostTags (Tags item)) with
    | Returned tags => Returned (payload item tags)
    | Failed e => Failed e
    | Panicked p => Panicked p
    end
  /\ encodeValue (PostTags None) = Returned "null"
  /\ encodeValue (PostTags (Some [])) = Returned "[]".
Proof. split; [apply Marshal_postdata | split; reflexivity]. Qed.

(** X9: outside the dry run, [PostNewItem] hands exactly one request to the
    network, the POST to [/api/v2/items] with the content type, the
    authorization and the payload, and prints nothing, whatever the
    outcome; a transport error and a read error come back wrapped twice,
    a body that is not JSON as [failed to unmarshal], and a body that
    decodes as the item, whatever the status code of the response. *)
Theorem PostNewItem_sends `{Externals} (item : Item) (w : World)
    (postbytes : string) :
  dryRun w = false ->
  Marshal_map (postdata item) = Returned postbytes ->
  sent (snd (PostNewItem item w)) = sent w ++ [items_request w postbytes]
  /\ stdout (snd (PostNewItem item w)) = stdout w
  /\ (forall err,
        client_Do (items_request w postbytes) = Failed err ->
        fst (PostNewItem item w)
        = Failed (Wrap (Wrap err "failed to do request") "failed to DoRequest"))
  /\ (forall resp err,
        client_Do (items_request w postbytes) = Returned resp ->
        ReadAll resp = Failed err ->
        fst (PostNewItem item w)
        = Failed (Wrap (Wrap err "failed to read response body")
                    "failed to DoRequest"))
  /\ (forall resp res,
        client_Do (items_request w postbytes) = Returned resp ->
        ReadAll resp = Returned res ->
        fst (PostNewItem item w)
        = match Unmarshal decodeItem res with
          | Returned it => Returned it
          | Failed err => Failed (Wrap err "failed to unmarshal")
          | Panicked p => Panicked p
          end).
Proof.
  intros Hlive Hm. rewrite (PostNewItem_live item w postbytes Hlive Hm).
  cbn [fst snd]. repeat split.
  - intros err ->. reflexivity.
  - intros resp err -> ->. reflexivity.
  - intros resp res -> ->. now destruct (Unmarshal decodeItem res).
Qed.

(** X10: in the dry run, [GetSelfItems] never succeeds: it prints the dump of
    the GET request to [/api/v2/authenticated_user/items], hands nothing to
    the network and fails on the empty bytes with [failed to unmarshal]. *)
Theorem GetSelfItems_dryRun `{Externals} (w : World) :
  dryRun w = true ->
  GetSelfItems w
  = (Failed (Wrap (SyntaxError UnexpectedEnd 0) "failed to unmarshal"),
     Println (fst (DumpRequest (self_items_request w) true)) w)
  /\ sent (snd (GetSelfItems w)) = sent w.
Proof.
  intros Hdry. rewrite (GetSelfItems_dry w Hdry). split; reflexivity.
Qed.

Lemma GetSelfItems_dryRun_witness :
  @GetSelfItems sample.externals world_dry
  = (Failed (Wrap (SyntaxError UnexpectedEnd 0) "failed to unmarshal"),
     Println (fst (@DumpRequest sample.externals
                     (self_items_request world_dry) true)) world_dry)
  /\ sent (snd (@GetSelfItems sample.externals world_dry)) = sent world_dry.
Proof. apply (@GetSelfItems_dryRun sample.externals world_dry). reflexivity. Defined.

(** X11: outside the dry run, [GetSelfItems] hands exactly one request to the
    network, a GET to [/api/v2/authenticated_user/items] with no body and
    the authorization as its only header, and prints nothing; a body that
    passes the JSON check is decoded whatever the status code, and a
    transport error comes back wrapped twice. *)
Theorem GetSelfItems_sends `{Externals} (w : World) :
  dryRun w = false ->
  sent (snd (GetSelfItems w)) = sent w ++ [self_items_request w]
  /\ stdout (snd (GetSelfItems w)) = stdout w
  /\ (forall err,
        client_Do (self_items_request w) = Failed err ->
        fst (GetSelfItems w)
        = Failed (Wrap (Wrap err "failed to do request") "failed to DoRequest"))
  /\ (forall resp res,
        client_Do (self_items_request w) = Returned resp ->
        ReadAll resp = Returned res ->
        fst (GetSelfItems w)
        = match Unmarshal decodeItems res with
          | Returned items => Returned items
          | Failed err => Failed (Wrap err "failed to unmarshal")
          | Panicked p => Panicked p
          end).
Proof.
  intros Hlive. rewrite (GetSelfItems_live w Hlive). cbn [fst snd].
  repeat split.
  - intros err ->. reflexivity.
  - intros resp res -> ->. now destruct (Unmarshal decodeItems res).
Qed.

Lemma GetSelfItems_sends_witness :
  sent (snd (@GetSelfItems sample.externals world_live))
  = sent world_live ++ [self_items_request world_live].
Proof.
  apply (@GetSelfItems_sends sample.externals world_live). reflexivity.
Defined.

Lemma PostNewItem_sends_witness :
  sent (snd (@PostNewItem sample.externals item_go world_live))
  = sent world_live
    ++ [items_request world_live
          (payload item_go
             ("[{" +:+ quoted "name" +:+ ":" +:+ quoted "go" +:+ ","
              +:+ quoted "tags" +:+ ":[" +:+ quoted "1.x" +:+ "]}]"))].
Proof.
  apply (@PostNewItem_sends sample.externals item_go world_live).
  - reflexivity.
  - vm_compute. reflexivity.
Defined.

(** ** The whole run *)

Section MainFacts.

Context `{Externals}.

(** [PostNewItem] hands at most one request to the network, and none in the
    dry run or when the payload is refused. *)
Lemma PostNewItem_sent item w :
  sent (snd (PostNewItem item w)) = sent w
  \/ (dryRun w = false
      /\ exists postbytes,
           Marshal_map (postdata item) = Returned postbytes
           /\ sent (snd (PostNewItem item w))
              = sent w ++ [items_request w postbytes]
           /\ stdout (snd (PostNewItem item w)) = stdout w).
Proof.
  destruct (Marshal_map (postdata item)) as [postbytes|e|p] eqn:Hm.
  - destruct (dryRun w) eqn:Hdry.
    + left. unfold PostNewItem.
      rewrite Hm, (DoRequest_dry _ w Hdry), Unmarshal_empty. reflexivity.
    + right. split; [reflexivity |]. exists postbytes.
      rewrite (PostNewItem_live item w postbytes Hdry Hm). cbn [fst snd].
      split; [reflexivity | split; reflexivity].
  - left. unfold PostNewItem. now rewrite Hm.
  - now apply Marshal_map_no_panic in Hm.
Qed.

Lemma ToMarkdown_returns item :
  exists md, ToMarkdown item = Returned md
             /\ all_bytes (fun b => negb (html_raw b)) md = true.
Proof.
  eexists; split; [reflexivity |].
  rewrite !all_bytes_app, !htmlEscaper_raw, tags_line_raw.
  now destruct (Private item).
Qed.

End MainFacts.

(** X12: when [main] returns, the dry run was off, the file was read and
    parsed, exactly one request went out, the POST of the parsed item, and
    the one line written to standard error is the Markdown of the item the
    service answered, not of the file, followed by a line feed; it holds
    no raw double quote, apostrophe, [+], [<] or [>]. *)
Theorem main_returns `{Externals} (file : outcome string) (w : World) :
  ends (main file w) = Returns ->
  dryRun w = false
  /\ exists buf it postbytes r md,
       file = Returned buf
       /\ ParseMarkdown buf = Returned it
       /\ Marshal_map (postdata it) = Returned postbytes
       /\ sent (world (main file w)) = sent w ++ [items_request w postbytes]
       /\ stdout (world (main file w)) = stdout w
       /\ fst (PostNewItem it w) = Returned r
       /\ ToMarkdown r = Returned md
       /\ stderr (main file w) = [md +:+ nl]
       /\ all_bytes (fun b => negb (html_raw b)) md = true.
Proof.
  unfold main. destruct file as [buf|err|p]; [| cbn [ends]; discriminate ..].
  destruct (ParseMarkdown buf) as [it|err|p] eqn:Hparse;
    [| cbn [ends]; discriminate ..].
  destruct (PostNewItem it w) as [[r|err|p] w'] eqn:Hpost;
    [| cbn [ends]; discriminate ..].
  destruct (ToMarkdown_returns r) as (md & Hmd & Hraw). rewrite Hmd.
  intros _. cbn [world stderr].
  assert (Hlive : dryRun w = false).
  { destruct (dryRun w) eqn:Hdry; [|reflexivity].
    destruct (PostNewItem_dry_fails it w Hdry) as [e He].
    rewrite Hpost in He. discriminate He. }
  split; [exact Hlive |].
  destruct (Marshal_map (postdata it)) as [postbytes|e|p] eqn:Hm.
  - exists buf, it, postbytes, r, md. rewrite Hpost. cbn [fst].
    pose proof (PostNewItem_live it w postbytes Hlive Hm) as Hl.
    rewrite Hpost in Hl. injection Hl as Hr ->.
    repeat (split; [first [reflexivity | assumption] |]). exact Hraw.
  - unfold PostNewItem in Hpost. rewrite Hm in Hpost. discriminate Hpost.
  - now apply Marshal_map_no_panic in Hm.
Qed.

Lemma main_returns_witness :
  dryRun world_live = false.
Proof.
  apply (@main_returns answering (Returned doc_tags) world_live).
  vm_compute. reflexivity.
Defined.

(** X13: in the dry run [main] never returns: it ends in a panic, and it
    hands nothing to the network. *)
Theorem main_dryRun `{Externals} (file : outcome string) (w : World) :
  dryRun w = true ->
  ends (main file w) <> Returns
  /\ sent (world (main file w)) = sent w.
Proof.
  intros Hdry. unfold main.
  destruct file as [buf|err|p];
    [| cbn [ends world]; split; [discriminate | reflexivity] ..].
  destruct (ParseMarkdown buf) as [it|err|p];
    [| cbn [ends world]; split; [discriminate | reflexivity] ..].
  destruct (PostNewItem_dry_fails it w Hdry) as [e He].
  destruct (PostNewItem_sent it w) as [Hsent | [Hlive _]]; [|congruence].
  destruct (PostNewItem it w) as [[r|err|p] w']; cbn [fst snd] in *;
    [discriminate He | | discriminate He].
  cbn [ends world]. split; [discriminate | exact Hsent].
Qed.

Lemma main_dryRun_witness :
  ends (@main sample.externals (Returned doc_tags) world_dry) <> Returns
  /\ sent (world (@main sample.externals (Returned doc_tags) world_dry))
     = sent world_dry.
Proof.
  apply (@main_dryRun sample.externals (Returned doc_tags) world_dry).
  reflexivity.
Defined.

(** X14: a run of [main] hands at most one request to the network, and none,
    with nothing printed either, when the file cannot be read or the
    parser panics on it. *)
Theorem main_one_request `{Externals} (file : outcome string) (w : World) :
  (sent (world (main file w)) = sent w
   \/ exists req, sent (world (main file w)) = sent w ++ [req])
  /\ ((forall buf it, file = Returned buf -> ParseMarkdown buf <> Returned it) ->
      world (main file w) = w /\ stderr (main file w) = []
      /\ ends (main file w) <> Returns).
Proof.
  unfold main. split.
  - destruct file as [buf|err|p]; [| cbn [world]; now left ..].
    destruct (ParseMarkdown buf) as [it|err|p]; [| cbn [world]; now left ..].
    assert (Hsent : sent (snd (PostNewItem it w)) = sent w
                    \/ exists req,
                         sent (snd (PostNewItem it w)) = sent w ++ [req]).
    { destruct (PostNewItem_sent it w) as [Hs | (_ & pb & _ & Hs & _)];
        [now left | right; eauto]. }
    destruct (PostNewItem it w) as [[r|err|p] w']; cbn [snd] in Hsent;
      [| cbn [world]; exact Hsent ..].
    destruct (ToMarkdown r); cbn [world]; exact Hsent.
  - intros Hno. destruct file as [buf|err|p];
      [| cbn [ends world stderr]; repeat split; discriminate ..].
    destruct (ParseMarkdown buf) as [it|err|p] eqn:Hp;
      [| cbn [ends world stderr]; repeat split; discriminate ..].
    now destruct (Hno buf it eq_refl).
Qed.

Lemma main_one_request_witness :
  world (@main sample.externals (Returned "no front matter") world_live)
  = world_live.
Proof.
  apply (@main_one_request sample.externals
           (Returned "no front matter") world_live).
  intros buf it [= <-]. vm_compute. discriminate.
Defined.

(** ** What [PostNewItem] and [DoRequest] do with a bad tag and a missing
    token *)

Section RefusalFacts.

Context `{Externals}.

Lemma marshalerEncoder_error t e :
  marshalerEncoder t = Failed e -> exists cause, e = MarshalerError cause.
Proof.
  unfold marshalerEncoder.
  destruct (Tagging_MarshalJSON_returns t) as [b ->].
  destruct (json.compact b); intros [= <-]; eauto.
Qed.

Lemma encodeElems_error ts e :
  encodeElems ts = Failed e -> exists cause, e = MarshalerError cause.
Proof.
  revert e; induction ts as [|t ts IH]; intros e; cbn [encodeElems];
    [discriminate |].
  destruct (marshalerEncoder t) as [b|e1|p] eqn:Ht; cbn.
  - destruct (encodeElems ts) as [bs|e2|p]; cbn; try discriminate.
    intros [= <-]. now apply IH.
  - intros [= <-]. now apply marshalerEncoder_error in Ht.
  - discriminate.
Qed.

Lemma PostNewItem_refused item w ts t e :
  Tags item = Some ts -> In t ts -> marshalerEncoder t = Failed e ->
  exists cause, PostNewItem item w = (Failed (MarshalerError cause), w).
Proof.
  intros Htags Hin Ht.
  destruct (encodeElems_refused ts t e Hin Ht) as [e' He'].
  destruct (encodeElems_error ts e' He') as [cause ->].
  exists cause. unfold PostNewItem.
  rewrite Marshal_postdata, Htags. cbn [encodeValue].
  rewrite He'. reflexivity.
Qed.

End RefusalFacts.

(** X15: an item with a tag whose JSON the encoder refuses makes
    [PostNewItem] fail with a marshaler error, in the dry run or not, before
    anything is sent or printed. *)
Theorem PostNewItem_refused_tag `{Externals}
    (item : Item) (w : World) (t : Tagging) (e : error) :
  In t (elems (Tags item)) ->
  marshalerEncoder t = Failed e ->
  exists cause, PostNewItem item w = (Failed (MarshalerError cause), w).
Proof.
  intros Hin Ht. destruct (Tags item) as [ts|] eqn:Htags; [|destruct Hin].
  now apply (PostNewItem_refused item w ts t e).
Qed.

Lemma PostNewItem_refused_tag_witness :
  exists cause,
    @PostNewItem sample.externals item_bad_tag world_live
    = (Failed (MarshalerError cause), world_live).
Proof.
  apply (@PostNewItem_refused_tag sample.externals item_bad_tag world_live
           (mkTagging ("a" +:+ dq +:+ "b") None)
           (MarshalerError
              (SyntaxError
                 (InvalidCharacter "b" "after object key:value pair") 0))).
  - right. left. reflexivity.
  - vm_compute. reflexivity.
Defined.

(** X16: outside the dry run [DoRequest] sends the request it was given with
    the one header [Authorization] replaced, whatever it held, by [Bearer ]
    and the token, every other header, the method, the URL and the body
    kept; an unset token is not noticed: the header is then [Bearer ] with
    nothing after it and the request still goes out. *)
Theorem DoRequest_authorization `{Externals} (req : Request) (w : World) :
  dryRun w = false ->
  exists req',
    sent (snd (DoRequest req w)) = sent w ++ [req']
    /\ stdout (snd (DoRequest req w)) = stdout w
    /\ Method req' = Method req /\ Url req' = Url req
    /\ ReqBody req' = ReqBody req
    /\ Header req' !! "Authorization"
       = Some ["Bearer " +:+ default "" (environ w !! "QIITA_API_TOKEN")]
    /\ (forall key, key <> "Authorization" ->
        Header req' !! key = Header req !! key)
    /\ (environ w !! "QIITA_API_TOKEN" = None ->
        Header req' !! "Authorization" = Some ["Bearer "]).
Proof.
  intros Hlive. eexists. rewrite (DoRequest_live req w Hlive). cbn [snd].
  split; [reflexivity |]. split; [reflexivity |].
  unfold Header_Set, Getenv. cbn [Method Url ReqBody Header].
  repeat (split; [reflexivity |]).
  split; [apply lookup_insert_eq |]. split.
  - intros key Hkey. now apply lookup_insert_ne.
  - intros ->. apply lookup_insert_eq.
Qed.

Lemma DoRequest_authorization_witness :
  exists req',
    sent (snd (@DoRequest sample.externals
                 (NewRequest "GET" "https://qiita.com/api/v2/items" None)
                 (mkWorld false ∅ [] [])))
    = sent (mkWorld false ∅ [] []) ++ [req']
    /\ Header req' !! "Authorization" = Some ["Bearer "].
Proof.
  destruct (@DoRequest_authorization sample.externals
              (NewRequest "GET" "https://qiita.com/api/v2/items" None)
              (mkWorld false ∅ [] []) eq_refl)
    as (req' & Hsent & _ & _ & _ & _ & _ & _ & Hnone).
  exists req'. split; [exact Hsent | apply Hnone; reflexivity].
Defined.

(** X17: writing a parsed token gives the token back, whatever the token. *)
Theorem Tagging_String_ParseTagging (s : string) :
  exists t, ParseTagging s = Returned t /\ Tagging_String t = s.
Proof. apply ParseTagging_String_inv. Qed.

(** ** The round trip that holds *)

Section RoundTrip.

Context `{Externals}.

Lemma ParseTagging_readable t :
  tag_readable t -> ParseTagging (Tagging_String t) = Returned t.
Proof.
  intros (Hname & Hne & Hvs & _). apply Contains_false in Hname.
  destruct t as [name [[|v vs]|]]; cbn [Name Versions] in *; try congruence.
  - rewrite (Tagging_String_cons (mkTagging name (Some (v :: vs))) v vs eq_refl).
    cbn [Name].
    rewrite (ParseTagging_colon _ _ Hname), Split_Join;
      [reflexivity | | discriminate].
    eapply Forall_impl; [exact Hvs |]. intros ?; apply Contains_false.
  - rewrite (Tagging_String_nil (mkTagging name None) eq_refl). cbn [Name].
    now apply ParseTagging_no_colon.
Qed.

Lemma parseTags_readable ts acc :
  Forall tag_readable ts ->
  parseTags (Tagging_String <$> ts) acc
  = Returned (match ts with [] => acc | _ => Some (elems acc ++ ts) end).
Proof.
  intros Hts. revert acc. induction Hts as [|t ts Ht _ IH]; intros acc.
  - reflexivity.
  - cbn [fmap list_fmap parseTags]. rewrite (ParseTagging_readable t Ht).
    cbn [mbind outcome_bind]. rewrite IH.
    f_equal. destruct ts as [|t' ts]; [reflexivity |].
    unfold append, elems. cbn. now rewrite <- List.app_assoc.
Qed.

Lemma Split_written_tags t ts :
  Forall tag_readable (t :: ts) ->
  strings.Split (strings.Join (Tagging_String <$> (t :: ts)) " ") " "
  = Some (Tagging_String <$> (t :: ts)).
Proof.
  intros Hts. apply Split_Join; [|discriminate].
  unfold sep_free. apply Forall_fmap.
  eapply Forall_impl; [exact Hts |].
  intros t' (_ & _ & _ & Hsp). now apply Contains_false.
Qed.

Lemma ParseMarkdown_written (item : Item) :
  Forall tag_readable (elems (Tags item)) ->
  strings.Index (front_matter item) delimiter = None ->
  yaml_Unmarshal (front_matter item) !! "title" = Some (YString (Title item)) ->
  yaml_Unmarshal (front_matter item) !! "private"
  = Some (YBool (Private item)) ->
  yaml_Unmarshal (front_matter item) !! "tags"
  = Some match elems (Tags item) with
         | [] => YNil
         | ts => YString (strings.Join (Tagging_String <$> ts) " ")
         end ->
  ParseMarkdown (delimiter +:+ front_matter item +:+ delimiter +:+ Body item)
  = Returned (mkItem "" (Title item) (Body item) "" (Private item)
                match Tags item with Some [] => None | tags => tags end
                (mkTime 0 0) (mkTime 0 0)).
Proof.
  intros Hts Hfront Htitle Hpriv Htags.
  rewrite <- (app_nil_l (delimiter +:+ _)).
  rewrite (ParseMarkdown_sections _ "" (front_matter item) (Body item)
             (SplitN_two_delimiters "" _ _ eq_refl Hfront)).
  rewrite Htitle, Hpriv, Htags.
  destruct (Tags item) as [[|t ts]|]; cbn [elems default from_option id] in *;
    [reflexivity | | reflexivity].
  cbn -[strings.Split strings.Join parseTags fmap].
  rewrite (Split_written_tags t ts Hts).
  cbn -[parseTags fmap]. now rewrite (parseTags_readable (t :: ts) None Hts).
Qed.

End RoundTrip.

(** X18: the round trip for an item that needs no escaping and whose tags
    are readable: when the title, the written tags and the body hold none
    of the replaced bytes, the front matter holds no delimiter line and the
    decoder reads from it the title as a string, the visibility as a boolean
    and the tags as the written tags joined by spaces (null when there is
    none), [ParseMarkdown] of what [ToMarkdown] returns is the item with the
    same title, body and visibility, and with the same tags but for the
    empty non-nil tags, which come back nil; the identifier, the rendered
    body and the two dates come back zero. *)
Theorem ParseMarkdown_ToMarkdown_readable `{Externals} (item : Item) :
  unescaped (Title item) = true ->
  Forall (fun t => unescaped (Tagging_String t) = true) (elems (Tags item)) ->
  unescaped (Body item) = true ->
  Forall tag_readable (elems (Tags item)) ->
  strings.Index (front_matter item) delimiter = None ->
  yaml_Unmarshal (front_matter item) !! "title" = Some (YString (Title item)) ->
  yaml_Unmarshal (front_matter item) !! "private"
  = Some (YBool (Private item)) ->
  yaml_Unmarshal (front_matter item) !! "tags"
  = Some match elems (Tags item) with
         | [] => YNil
         | ts => YString (strings.Join (Tagging_String <$> ts) " ")
         end ->
  exists md,
    ToMarkdown item = Returned md
    /\ ParseMarkdown md
       = Returned (mkItem "" (Title item) (Body item) "" (Private item)
                     match Tags item with Some [] => None | tags => tags end
                     (mkTime 0 0) (mkTime 0 0))
    /\ (Tags item <> Some [] ->
        exists it', ParseMarkdown md = Returned it'
          /\ Title it' = Title item /\ Body it' = Body item
          /\ Private it' = Private item /\ Tags it' = Tags item).
Proof.
  intros Htitle Htags Hbody Hread Hfront Hyt Hyp Hytags.
  pose proof (ParseMarkdown_written item Hread Hfront Hyt Hyp Hytags)
    as Hparse.
  exists (delimiter +:+ front_matter item +:+ delimiter +:+ Body item).
  split; [now apply ToMarkdown_unescaped |]. split; [exact Hparse |].
  intros Hne. eexists. split; [exact Hparse |]. cbn.
  repeat split. now destruct (Tags item) as [[|t ts]|].
Qed.

Lemma ParseMarkdown_ToMarkdown_readable_witness :
  (exists md,
     ToMarkdown item_hello = Returned md
     /\ @ParseMarkdown sample.externals md = Returned item_hello)
  /\ (exists md,
        ToMarkdown item_no_tags = Returned md
        /\ @ParseMarkdown sample.externals md
           = Returned (mkItem "" "Hello" "Body text here." "" false None
                         (mkTime 0 0) (mkTime 0 0))).
Proof.
  split.
  - destruct (@ParseMarkdown_ToMarkdown_readable sample.externals item_hello)
      as (md & Hmd & Hparse & _).
    + reflexivity.
    + repeat constructor.
    + reflexivity.
    + repeat constructor; discriminate.
    + reflexivity.
    + vm_compute. reflexivity.
    + vm_compute. reflexivity.
    + vm_compute. reflexivity.
    + exists md. split; [exact Hmd | exact Hparse].
  - destruct (@ParseMarkdown_ToMarkdown_readable sample.externals item_no_tags)
      as (md & Hmd & Hparse & _).
    + reflexivity.
    + constructor.
    + reflexivity.
    + constructor.
    + reflexivity.
    + vm_compute. reflexivity.
    + vm_compute. reflexivity.
    + vm_compute. reflexivity.
    + exists md. split; [exact Hmd | exact Hparse].
Defined.
